(** * A To Do list: the task table, its REST handlers and the client hook

    Shallow embedding of

    - [todo_backend/db/index.js]: the SQLite helper layer ([mapRow],
      [getAllTasks], [createTask], [updateTask], [getTaskById],
      [deleteTask]);
    - the Express handlers of [createApp] (POST /todos, PUT /todos/:id,
      DELETE /todos/:id, GET /todos);
    - [todo_frontend/src/hooks/useTodos.js]: the React hook ([fetchTodos],
      [addTodo], [updateTodo], [toggleComplete], [deleteTodo], [stats]).

    The [tasks] table has an INTEGER PRIMARY KEY AUTOINCREMENT: it is a
    finite map from row ids to the other columns, together with the counter
    SQLite keeps in [sqlite_sequence].  Failures of the storage driver itself
    (I/O errors) are outside the model: every statement runs to completion. *)

From Stdlib Require Import ZArith NArith String Ascii OrderedTypeEx.
From stdpp Require Import base option list sorting gmap pretty.

Local Open Scope Z_scope.

(** ** JavaScript strings *)

Module Js.

(** A JavaScript string is a sequence of UTF-16 code units. *)
Definition jsstring := list N.

(** The code units of an ASCII literal. *)
Fixpoint lit (s : string) : jsstring :=
  match s with
  | EmptyString => []
  | String c s' => N_of_ascii c :: lit s'
  end.

(** ECMAScript [WhiteSpace] and [LineTerminator] code points, the ones
    [String.prototype.trim] strips: TAB, LF, VT, FF, CR, SP, NBSP, the
    Unicode space separators, LS, PS and the byte order mark. *)
Definition isWhiteSpace (c : N) : bool :=
  ((9 <=? c) && (c <=? 13) || (c =? 32) || (c =? 160) || (c =? 5760)
   || (8192 <=? c) && (c <=? 8202) || (c =? 8232) || (c =? 8233)
   || (c =? 8239) || (c =? 8287) || (c =? 12288) || (c =? 65279))%N.

(** Nothing but white space. *)
Definition blank (s : jsstring) : Prop :=
  Forall (fun c => isWhiteSpace c = true) s.

(** [String.prototype.trimStart] *)
Fixpoint trimStart (s : jsstring) : jsstring :=
  match s with
  | [] => []
  | c :: s' => if isWhiteSpace c then trimStart s' else s
  end.

(** [String.prototype.trimEnd]: a code unit is kept when it is not white
    space or when something is kept after it. *)
Fixpoint trimEnd (s : jsstring) : jsstring :=
  match s with
  | [] => []
  | c :: s' =>
      match trimEnd s' with
      | [] => if isWhiteSpace c then [] else [c]
      | r => c :: r
      end
  end.

(** [String.prototype.trim] *)
Definition trim (s : jsstring) : jsstring := trimEnd (trimStart s).

(** A lead (high) surrogate, U+D800 to U+DBFF, and a trail (low) surrogate,
    U+DC00 to U+DFFF. *)
Definition is_high (c : N) : bool := ((55296 <=? c) && (c <=? 56319))%N.
Definition is_low (c : N) : bool := ((56320 <=? c) && (c <=? 57343))%N.

(** [String.prototype.toWellFormed]: every surrogate that is not half of a
    pair becomes U+FFFD.  It is also what a string is after it has been
    written as UTF-8 and read back. *)
Fixpoint toWellFormed (s : jsstring) : jsstring :=
  match s with
  | [] => []
  | c :: s' =>
      if is_high c
      then match s' with
           | d :: s'' =>
               if is_low d then c :: d :: toWellFormed s''
               else 65533%N :: toWellFormed s'
           | [] => [65533%N]
           end
      else if is_low c then 65533%N :: toWellFormed s'
           else c :: toWellFormed s'
  end.

(** [String.prototype.isWellFormed] *)
Definition isWellFormed (s : jsstring) : Prop := toWellFormed s = s.

(** [String(title || "")] for a [title] that is [undefined] or a string:
    [undefined] and the empty string are falsy and give [""]. *)
Definition String_or_empty (title : option jsstring) : jsstring :=
  match title with
  | Some s => s
  | None => []
  end.

(** [x || fallback] on strings: the empty string is falsy. *)
Definition or_else (x fallback : string) : string :=
  match x with
  | EmptyString => fallback
  | _ => x
  end.

End Js.

(** ** The objects exchanged over the API *)

Module Api.

(** [{ id, title, completed, createdAt, updatedAt }], as [mapRow] builds it
    and as the client keeps it. *)
Record Todo := mkTodo {
  id : Z;
  title : Js.jsstring;
  completed : bool;
  createdAt : string;
  updatedAt : option string
}.

(** A partial update [{ title?, completed? }]: [None] is an absent property. *)
Record Updates := mkUpdates {
  upd_title : option Js.jsstring;
  upd_completed : option bool
}.

End Api.

(** ** db/index.js *)

Module Db.

(** A row of [tasks] without its key, as it reads back:
    [title TEXT NOT NULL],
    [completed INTEGER NOT NULL DEFAULT 0], [created_at DATETIME NOT NULL],
    [updated_at DATETIME] (nullable).  The dates are the texts that
    [new Date().toISOString()] produced. *)
Record Row := mkRow {
  title : Js.jsstring;
  completed : Z;
  created_at : string;
  updated_at : option string
}.

(** The table, keyed by [id], and the [seq] that [sqlite_sequence] holds for
    it: the largest row id the table has ever had. *)
Record Database := mkDatabase {
  tasks : gmap Z Row;
  sqlite_sequence : Z
}.

(** A string bound to a TEXT column, as the column gives it back: the driver
    writes it as UTF-8, where a surrogate without its pair is written as
    U+FFFD. *)
Definition text (s : Js.jsstring) : Js.jsstring := Js.toWellFormed s.

(** [initDatabase] on a fresh file: [CREATE TABLE IF NOT EXISTS tasks]. *)
Definition initDatabase : Database :=
  {| tasks := ∅; sqlite_sequence := 0 |}.

(** The largest row id in the table, 0 for an empty table. *)
Definition max_rowid (t : gmap Z Row) : Z :=
  foldr Z.max 0 (fst <$> map_to_list t).

(** The row id an AUTOINCREMENT insert picks: one more than the largest id
    that ever existed in the table. *)
Definition next_rowid (db : Database) : Z :=
  Z.max (sqlite_sequence db) (max_rowid (tasks db)) + 1.

(** The body of [mapRow] for a row that exists. *)
Definition todo_of_row (row : Z * Row) : Api.Todo :=
  {| Api.id := row.1;
     Api.title := title row.2;
     Api.completed := negb (completed row.2 =? 0);
     Api.createdAt := created_at row.2;
     Api.updatedAt :=
       match updated_at row.2 with
       | Some EmptyString | None => None
       | Some s => Some s
       end |}.

(** [mapRow]: [null] for a missing row. *)
Definition mapRow (row : option (Z * Row)) : option Api.Todo :=
  todo_of_row <$> row.

(** [SELECT ... FROM tasks WHERE id = ?] through [db.get] *)
Definition select_by_id (db : Database) (i : Z) : option (Z * Row) :=
  (fun r => (i, r)) <$> tasks db !! i.

(** [getTaskById] *)
Definition getTaskById (db : Database) (i : Z) : option Api.Todo :=
  mapRow (select_by_id db i).

(** [ORDER BY created_at DESC, id DESC]: [a] may come before [b].  An ISO
    date is not a numeric literal, so the column keeps it as TEXT and the
    comparison is the bytewise one of [String.compare]. *)
Definition order_by (a b : Z * Row) : Prop :=
  match String.compare (created_at a.2) (created_at b.2) with
  | Gt => True
  | Eq => b.1 <= a.1
  | Lt => False
  end.

#[export] Instance order_by_dec (a b : Z * Row) : Decision (order_by a b).
Proof.
  unfold order_by.
  destruct (String.compare (created_at a.2) (created_at b.2)).
  - apply Z_le_dec.
  - right. exact (fun H => H).
  - left. exact I.
Defined.

(** [SELECT ... FROM tasks ORDER BY created_at DESC, id DESC] through
    [db.all] *)
Definition select_all (db : Database) : list (Z * Row) :=
  merge_sort order_by (map_to_list (tasks db)).

(** [getAllTasks]: [rows.map(mapRow)]; the rows of [db.all] are never null. *)
Definition getAllTasks (db : Database) : list Api.Todo :=
  todo_of_row <$> select_all db.

(** [createTask({ title, completed = false })] at the instant [now]; gives the
    database after the INSERT and the value the promise resolves to. *)
Definition createTask (db : Database) (title : option Js.jsstring)
    (completed : option bool) (now : string) : Database * option Api.Todo :=
  let comp := if default false completed then 1 else 0 in
  let lastID := next_rowid db in
  let db' :=
    {| tasks :=
         <[lastID := {| title := text (Js.trim (Js.String_or_empty title));
                        completed := comp;
                        created_at := now;
                        updated_at := None |}]> (tasks db);
       sqlite_sequence := lastID |} in
  (db', mapRow (select_by_id db' lastID)).

(** One [column = ?] of the SET clause, with its parameter. *)
Inductive Assignment :=
| SetTitle (v : Js.jsstring)
| SetCompleted (v : Z)
| SetUpdatedAt (v : string).

Definition assign (r : Row) (a : Assignment) : Row :=
  match a with
  | SetTitle v =>
      {| title := text v; completed := completed r;
         created_at := created_at r; updated_at := updated_at r |}
  | SetCompleted v =>
      {| title := title r; completed := v;
         created_at := created_at r; updated_at := updated_at r |}
  | SetUpdatedAt v =>
      {| title := title r; completed := completed r;
         created_at := created_at r; updated_at := Some v |}
  end.

(** [UPDATE tasks SET <fields> WHERE id = ?]: the table afterwards and
    [this.changes]. *)
Definition run_update (db : Database) (fields : list Assignment) (i : Z)
    : Database * Z :=
  ({| tasks := alter (fun r => foldl assign r fields) i (tasks db);
      sqlite_sequence := sqlite_sequence db |},
   if tasks db !! i is Some _ then 1 else 0).

(** [updateTask(id, updates)] at the instant [now] *)
Definition updateTask (db : Database) (i : Z) (updates : Api.Updates)
    (now : string) : Database * option Api.Todo :=
  let fields :=
    match Api.upd_title updates with
    | Some t => [SetTitle (Js.trim (Js.String_or_empty (Some t)))]
    | None => []
    end
    ++ match Api.upd_completed updates with
       | Some c => [SetCompleted (if c then 1 else 0)]
       | None => []
       end
    ++ [SetUpdatedAt now] in
  if (length fields =? 1)%nat then (db, getTaskById db i)
  else
    let '(db', changes) := run_update db fields i in
    if changes =? 0 then (db', None)
    else (db', mapRow (select_by_id db' i)).

(** [deleteTask(id)]: [DELETE FROM tasks WHERE id = ?], resolving to
    [this.changes > 0]. *)
Definition deleteTask (db : Database) (i : Z) : Database * bool :=
  ({| tasks := delete i (tasks db);
      sqlite_sequence := sqlite_sequence db |},
   0 <? (if tasks db !! i is Some _ then 1 else 0)).

End Db.

(** ** The Express handlers of [createApp] *)

Module Server.

(** What a handler sends: [res.json(v)], or [res.send()] with no body. *)
Inductive Body :=
| JsonTodo (t : option Api.Todo)
| JsonList (l : list Api.Todo)
| JsonMessage (message : string)
| NoBody.

Record Response := mkResponse {
  status : Z;
  body : Body
}.

(** [app.get("/todos")] *)
Definition get_todos (db : Db.Database) : Db.Database * Response :=
  (db, {| status := 200; body := JsonList (Db.getAllTasks db) |}).

(** [app.post("/todos")] for a body [{ title?, completed? }] whose [title],
    when present, is a string. *)
Definition post_todos (db : Db.Database) (title : option Js.jsstring)
    (completed : option bool) (now : string) : Db.Database * Response :=
  let completed := default false completed in
  let trimmed := Js.trim (Js.String_or_empty title) in
  match trimmed with
  | [] => (db, {| status := 400; body := JsonMessage "Title is required" |})
  | _ =>
      let '(db', created) :=
        Db.createTask db (Some trimmed) (Some completed) now in
      (db', {| status := 201; body := JsonTodo created |})
  end.

(** [app.put("/todos/:id")]; [i] is [Number(req.params.id)], [None] when it
    is not a finite number.  Ids are integers here: a fractional id passes
    the check and matches no row. *)
Definition put_todos (db : Db.Database) (i : option Z)
    (title : option Js.jsstring) (completed : option bool) (now : string)
    : Db.Database * Response :=
  match i with
  | None => (db, {| status := 400; body := JsonMessage "Invalid id" |})
  | Some i =>
      if i <=? 0
      then (db, {| status := 400; body := JsonMessage "Invalid id" |})
      else
        let updates :=
          {| Api.upd_title := title; Api.upd_completed := completed |} in
        let '(db', updated) := Db.updateTask db i updates now in
        match updated with
        | None =>
            (db', {| status := 404; body := JsonMessage "Todo not found" |})
        | Some t => (db', {| status := 200; body := JsonTodo (Some t) |})
        end
  end.

(** [app.delete("/todos/:id")] *)
Definition delete_todos (db : Db.Database) (i : option Z)
    : Db.Database * Response :=
  match i with
  | None => (db, {| status := 400; body := JsonMessage "Invalid id" |})
  | Some i =>
      if i <=? 0
      then (db, {| status := 400; body := JsonMessage "Invalid id" |})
      else
        let '(db', removed) := Db.deleteTask db i in
        if removed
        then (db', {| status := 204; body := NoBody |})
        else (db', {| status := 404; body := JsonMessage "Todo not found" |})
  end.

End Server.

(** ** hooks/useTodos.js *)

Module Hook.

Import Api.

(** The three [useState] cells. *)
Record State := mkState {
  todos : list Todo;
  loading : bool;
  error : string
}.

(** [useState([])], [useState(true)], [useState("")] *)
Definition initial : State :=
  {| todos := []; loading := true; error := "" |}.

Definition setTodos (v : list Todo) (s : State) : State :=
  {| todos := v; loading := loading s; error := error s |}.

Definition setLoading (v : bool) (s : State) : State :=
  {| todos := todos s; loading := v; error := error s |}.

Definition setError (v : string) (s : State) : State :=
  {| todos := todos s; loading := loading s; error := v |}.

(** The body [addTodo] posts: [{ title, completed }]. *)
Record NewTodo := mkNewTodo {
  new_title : Js.jsstring;
  new_completed : bool
}.

(** What [GET /todos] may resolve to: an array of tasks or something else. *)
Inductive Fetched :=
| IsArray (data : list Todo)
| NotArray.

(** The calls to [apiRequest].  The body of a PUT is
    [JSON.stringify(next.find(...))]: [None] when [find] gave [undefined]
    and the request goes out without a body. *)
Inductive Request :=
| GetTodos
| PostTodos (body : NewTodo)
| PutTodo (i : Z) (body : option Todo)
| DeleteTodo (i : Z).

(** The type of the data a successful call resolves to. *)
Definition Reply (r : Request) : Type :=
  match r with
  | GetTodos => Fetched
  | PostTodos _ => Todo
  | PutTodo _ _ => Todo
  | DeleteTodo _ => unit
  end.

(** How [await apiRequest(...)] ends: with the data, or with a thrown error
    and its [message]. *)
Inductive Outcome (A : Type) :=
| Resolved (data : A)
| Threw (message : string).
Arguments Resolved {A} data.
Arguments Threw {A} message.

(** An [async] callback of the hook, run up to its one [await]: it has
    returned ([Return], with the state it leaves), or it has issued a request
    and is suspended ([Await], with the state at that point); [resume] is the
    rest of the callback, applied to the outcome of the request and to the
    state that is current when the promise settles. *)
Inductive Async :=
| Return (s : State)
| Await (s : State) (req : Request)
    (resume : Outcome (Reply req) -> State -> State).

(** [fetchTodos] *)
Definition fetchTodos (s : State) : Async :=
  let s := setLoading true s in
  let s := setError "" s in
  Await s GetTodos (fun outcome curr =>
    match outcome with
    | Resolved data =>
        let curr :=
          setTodos (match data with IsArray l => l | NotArray => [] end) curr in
        setLoading false curr
    | Threw message =>
        let curr := setError (Js.or_else message "Failed to load todos") curr in
        setLoading false curr
    end).

(** [addTodo(title)] *)
Definition addTodo (s : State) (title : Js.jsstring) : Async :=
  let newTodo := {| new_title := Js.trim title; new_completed := false |} in
  match new_title newTodo with
  | [] => Return s
  | _ =>
      Await s (PostTodos newTodo) (fun outcome curr =>
        match outcome with
        | Resolved created => setTodos (created :: todos curr) curr
        | Threw message =>
            setError (Js.or_else message "Failed to add todo") curr
        end)
  end.

(** [{ ...t, ...updates }] *)
Definition spread (t : Todo) (updates : Updates) : Todo :=
  {| id := id t;
     title := default (title t) (upd_title updates);
     completed := default (completed t) (upd_completed updates);
     createdAt := createdAt t;
     updatedAt := updatedAt t |}.

(** [updateTodo(id, updates)]; [todos s] is the list the callback closed
    over. *)
Definition updateTodo (s : State) (i : Z) (updates : Updates) : Async :=
  let s1 := setError "" s in
  let prev := todos s in
  let next := map (fun t => if id t =? i then spread t updates else t) prev in
  let s2 := setTodos next s1 in
  Await s2 (PutTodo i (find (fun t => id t =? i) next)) (fun outcome curr =>
    match outcome with
    | Resolved updated =>
        setTodos (map (fun t => if id t =? i then updated else t) (todos curr))
          curr
    | Threw message =>
        let curr := setTodos prev curr in
        setError (Js.or_else message "Failed to update todo") curr
    end).

(** [toggleComplete(id)] *)
Definition toggleComplete (s : State) (i : Z) : Async :=
  match find (fun t => id t =? i) (todos s) with
  | None => Return s
  | Some target =>
      updateTodo s i
        {| upd_title := None; upd_completed := Some (negb (completed target)) |}
  end.

(** [deleteTodo(id)] *)
Definition deleteTodo (s : State) (i : Z) : Async :=
  let s1 := setError "" s in
  let prev := todos s in
  let s2 := setTodos (filter (fun t => id t <> i) (todos s1)) s1 in
  Await s2 (DeleteTodo i) (fun outcome curr =>
    match outcome with
    | Resolved _ => curr
    | Threw message =>
        let curr := setTodos prev curr in
        setError (Js.or_else message "Failed to delete todo") curr
    end).

(** [stats]: [{ total, completed, active }] *)
Record Stats := mkStats {
  total : Z;
  stats_completed : Z;
  active : Z
}.

Definition stats (s : State) : Stats :=
  let total := Z.of_nat (length (todos s)) in
  let completed :=
    Z.of_nat (length (filter (fun t => completed t = true) (todos s))) in
  let active := total - completed in
  {| total := total; stats_completed := completed; active := active |}.

(** The state in which the callback returns or suspends. *)
Definition at_await (a : Async) : State :=
  match a with
  | Return s => s
  | Await s _ _ => s
  end.

(** The request the callback issues, if any. *)
Definition issued (a : Async) : option Request :=
  match a with
  | Return _ => None
  | Await _ req _ => Some req
  end.

(** The network, as the callback sees it: an outcome for each request. *)
Definition Network := forall req : Request, Outcome (Reply req).

(** The callback run to its end, nothing else touching the state while it is
    suspended. *)
Definition complete (a : Async) (net : Network) : State :=
  match a with
  | Return s => s
  | Await s req resume => resume (net req) s
  end.

(** The request of the callback is issued and fails. *)
Definition fails (a : Async) (net : Network) : Prop :=
  match a with
  | Return _ => False
  | Await _ req _ => exists message, net req = Threw message
  end.

(** The state the callback leaves when its request is rejected with
    [message] while the state is [curr]. *)
Definition rejected (a : Async) (message : string) (curr : State) : State :=
  match a with
  | Return s => s
  | Await _ _ resume => resume (Threw message) curr
  end.

(** The callback clears [error] before it suspends, and ends with an error
    exactly when its own request failed. *)
Definition error_policy (a : Async) : Prop :=
  error (at_await a) = ""%string
  /\ forall net,
      (fails a net -> error (complete a net) <> ""%string)
      /\ (~ fails a net -> error (complete a net) = ""%string).

End Hook.

(** ** Store operations in sequence, and sample data *)

Module Trace.

(** One call of the helper layer, with the instant at which it runs. *)
Inductive Op :=
| Create (title : option Js.jsstring) (completed : option bool) (now : string)
| Update (i : Z) (updates : Api.Updates) (now : string)
| Delete (i : Z)
| ListAll.

(** The database after the call. *)
Definition step (db : Db.Database) (op : Op) : Db.Database :=
  match op with
  | Create title completed now => (Db.createTask db title completed now).1
  | Update i updates now => (Db.updateTask db i updates now).1
  | Delete i => (Db.deleteTask db i).1
  | ListAll => db
  end.

Definition run (db : Db.Database) (ops : list Op) : Db.Database :=
  foldl step db ops.

(** What AUTOINCREMENT maintains: [sqlite_sequence] is at least every row id
    of the table. *)
Definition autoincrement_ok (db : Db.Database) : Prop :=
  Db.max_rowid (Db.tasks db) <= Db.sqlite_sequence db.

(** The id [i] is spent: the counter has passed it and no row has it. *)
Definition spent (i : Z) (db : Db.Database) : Prop :=
  autoincrement_ok db
  /\ i <= Db.sqlite_sequence db
  /\ Db.tasks db !! i = None.

(** [a] is listed before [b]: created later, or at the same instant with a
    larger id. *)
Definition newer (a b : Api.Todo) : Prop :=
  String.compare (Api.createdAt b) (Api.createdAt a) = Lt
  \/ (Api.createdAt a = Api.createdAt b /\ Api.id b < Api.id a).

End Trace.

Module Sample.

Definition monday : string := "2024-01-01T09:00:00.000Z".
Definition tuesday : string := "2024-01-02T09:00:00.000Z".

Definition no_fields : Api.Updates :=
  {| Api.upd_title := None; Api.upd_completed := None |}.

Definition done : Api.Updates :=
  {| Api.upd_title := None; Api.upd_completed := Some true |}.

(** One task, created on Monday and never updated. *)
Definition one_task : Db.Database :=
  (Db.createTask Db.initDatabase (Some (Js.lit "Buy milk")) None monday).1.

(** The client after a failed load. *)
Definition stale : Hook.State :=
  {| Hook.todos := []; Hook.loading := false;
     Hook.error := "Failed to load todos" |}.

(** The client with an empty list and no error. *)
Definition idle : Hook.State :=
  {| Hook.todos := []; Hook.loading := false; Hook.error := "" |}.

(** The client showing the one task. *)
Definition showing : Hook.State :=
  {| Hook.todos := Db.getAllTasks one_task; Hook.loading := false;
     Hook.error := "" |}.

(** The one task, as the client sees it. *)
Definition milk : Api.Todo :=
  {| Api.id := 1; Api.title := Js.lit "Buy milk"; Api.completed := false;
     Api.createdAt := monday; Api.updatedAt := None |}.

(** A network on which every request succeeds. *)
Definition online : Hook.Network :=
  fun req =>
    match req with
    | Hook.GetTodos => Hook.Resolved (Hook.IsArray [milk])
    | Hook.PostTodos _ => Hook.Resolved milk
    | Hook.PutTodo _ _ => Hook.Resolved milk
    | Hook.DeleteTodo _ => Hook.Resolved tt
    end.

(** A network on which every request fails. *)
Definition offline : Hook.Network := fun _ => Hook.Threw "Failed to fetch".

End Sample.

(** ** Well-formed rows *)

Module Rows.

(** What the helper layer writes in a row: a trimmed title and a 0/1 flag. *)
Definition row_ok (r : Db.Row) : Prop :=
  Js.trim (Db.title r) = Db.title r
  /\ (Db.completed r = 0 \/ Db.completed r = 1).

(** Every row is well formed, under an id between 1 and the counter. *)
Definition rows_ok (db : Db.Database) : Prop :=
  forall i r,
    Db.tasks db !! i = Some r ->
    row_ok r /\ 1 <= i <= Db.sqlite_sequence db.

(** The row [updateTask] leaves in place of [r]. *)
Definition updated (r : Db.Row) (updates : Api.Updates) (now : string)
    : Db.Row :=
  {| Db.title :=
       default (Db.title r)
         ((fun t => Db.text (Js.trim t)) <$> Api.upd_title updates);
     Db.completed :=
       default (Db.completed r)
         ((fun c : bool => if c then 1 else 0) <$> Api.upd_completed updates);
     Db.created_at := Db.created_at r;
     Db.updated_at := Some now |}.

End Rows.

(** ** The client against the server *)

Module Wire.

Import Hook.

(** [response.ok]: a status from 200 to 299. *)
Definition ok (resp : Server.Response) : bool :=
  (200 <=? Server.status resp) && (Server.status resp <=? 299).

(** [data && data.message] as a string, [""] when it is falsy: only the
    [{ message }] objects of the handlers have the property. *)
Definition message_of (data : Server.Body) : string :=
  match data with
  | Server.JsonMessage m => m
  | _ => ""
  end.

(** [apiRequest], from the response that [fetch] resolved to: the parsed
    body, or an error whose message is that of the body or, failing that,
    tells the status. *)
Definition apiRequest (resp : Server.Response) : Outcome Server.Body :=
  let data := Server.body resp in
  if negb (ok resp)
  then Threw (Js.or_else (message_of data)
                ("Request failed with status "
                 +:+ pretty (Server.status resp)))
  else Resolved data.

(** The data of a response, at the type the callback uses it; [None] when the
    body is not of that shape.  [fetchTodos] takes anything
    ([Array.isArray]) and [deleteTodo] ignores it. *)
Definition typed (req : Request) (data : Server.Body) : option (Reply req) :=
  match req with
  | GetTodos =>
      Some (match data with Server.JsonList l => IsArray l | _ => NotArray end)
  | PostTodos _ =>
      match data with Server.JsonTodo (Some t) => Some t | _ => None end
  | PutTodo _ _ =>
      match data with Server.JsonTodo (Some t) => Some t | _ => None end
  | DeleteTodo _ => Some tt
  end.

(** The handler a request reaches, with what [express.json()] and the
    handler read from it: the [title] and [completed] of the body when there
    is one, the id of the path. *)
Definition route (db : Db.Database) (req : Request) (now : string)
    : Db.Database * Server.Response :=
  match req with
  | GetTodos => Server.get_todos db
  | PostTodos body =>
      Server.post_todos db (Some (new_title body)) (Some (new_completed body))
        now
  | PutTodo i body =>
      Server.put_todos db (Some i) (Api.title <$> body)
        (Api.completed <$> body) now
  | DeleteTodo i => Server.delete_todos db (Some i)
  end.

(** One request served: the database afterwards and how [apiRequest] ends. *)
Definition exchange (db : Db.Database) (req : Request) (now : string)
    : option (Db.Database * Outcome (Reply req)) :=
  let '(db', resp) := route db req now in
  match apiRequest resp with
  | Threw message => Some (db', Threw message)
  | Resolved data =>
      match typed req data with
      | Some v => Some (db', Resolved v)
      | None => None
      end
  end.

(** A callback run to its end against the server. *)
Definition perform (a : Async) (db : Db.Database) (now : string)
    : option (Db.Database * State) :=
  match a with
  | Return s => Some (db, s)
  | Await s req resume =>
      match exchange db req now with
      | Some (db', outcome) => Some (db', resume outcome s)
      | None => None
      end
  end.

(** The client shows the list the server would send. *)
Definition in_sync (s : State) (db : Db.Database) : Prop :=
  todos s = Db.getAllTasks db.

End Wire.

(** ** A session *)

Module Session.

Import Hook.

(** What the user does: the load on mount or a reload, and the four
    callbacks the components are given. *)
Inductive Action :=
| Refresh
| Add (title : Js.jsstring)
| Edit (i : Z) (updates : Api.Updates)
| Toggle (i : Z)
| Remove (i : Z).

Definition callback (a : Action) (s : State) : Async :=
  match a with
  | Refresh => fetchTodos s
  | Add title => addTodo s title
  | Edit i updates => updateTodo s i updates
  | Toggle i => toggleComplete s i
  | Remove i => deleteTodo s i
  end.

(** Actions one after the other, each with the instant at which the server
    handles it, each finished before the next begins. *)
Fixpoint run (actions : list (Action * string)) (db : Db.Database)
    (s : State) : option (Db.Database * State) :=
  match actions with
  | [] => Some (db, s)
  | (a, now) :: rest =>
      match Wire.perform (callback a s) db now with
      | Some (db', s') => run rest db' s'
      | None => None
      end
  end.

(** [a] is not after [b], as dates compare in the table. *)
Definition not_after (a b : string) : Prop := String.compare a b <> Gt.

(** The clock does not go back: no instant is before an earlier one, or
    before the creation of a task of the table. *)
Definition clock_ok (db : Db.Database) (times : list string) : Prop :=
  StronglySorted not_after times
  /\ forall now j r,
      now ∈ times -> Db.tasks db !! j = Some r ->
      not_after (Db.created_at r) now.

End Session.

(** ** components/TodoInput.js and components/TodoItem.js *)

Module Ui.

(** [submit] of [TodoInput], with the text of the input: the title handed to
    [onAdd], if any, and the text the input is left with. *)
Definition submit (value : Js.jsstring) : option Js.jsstring * Js.jsstring :=
  let title := Js.trim value in
  match title with
  | [] => (None, value)
  | _ => (Some title, [])
  end.

(** The two [useState] cells of [TodoItem]. *)
Record Item := mkItem {
  editing : bool;
  title : Js.jsstring
}.

(** [handleSave] of [TodoItem]: the call to [onUpdate], if any, with its id
    and updates, and the cells afterwards. *)
Definition handleSave (todo : Api.Todo) (st : Item)
    : option (Z * Api.Updates) * Item :=
  let trimmed := Js.trim (title st) in
  if bool_decide (trimmed = []) || bool_decide (trimmed = Api.title todo)
  then (None, {| editing := false; title := Api.title todo |})
  else (Some (Api.id todo,
              {| Api.upd_title := Some trimmed; Api.upd_completed := None |}),
        {| editing := false; title := title st |}).

(** [handleKey] of [TodoItem], with [e.key]. *)
Definition handleKey (todo : Api.Todo) (st : Item) (key : string)
    : option (Z * Api.Updates) * Item :=
  if String.eqb key "Enter" then handleSave todo st
  else if String.eqb key "Escape"
       then (None, {| editing := false; title := Api.title todo |})
       else (None, st).

End Ui.

(** ** Where the server and the client look for each other *)

Module Config.

(** [process.env]: a variable is unset or has a string. *)
Definition Env := string -> option Js.jsstring.

(** [a || b] on values that are [undefined] or strings. *)
Definition or (a b : option Js.jsstring) : option Js.jsstring :=
  match a with
  | Some (_ :: _) => a
  | _ => b
  end.

(** [v || ""]; for a truthy [v], its string. *)
Definition or_empty (v : option Js.jsstring) : Js.jsstring :=
  match v with
  | Some s => s
  | None => []
  end.



(** A value is truthy: a string that is not empty. *)
Definition truthy (v : option Js.jsstring) : bool :=
  match v with
  | Some (_ :: _) => true
  | _ => false
  end.


(** [s.replace(/\/+$/, "")]: a slash is kept when something is kept after
    it. *)
Fixpoint strip_slashes (s : Js.jsstring) : Js.jsstring :=
  match s with
  | [] => []
  | c :: s' =>
      match strip_slashes s' with
      | [] => if (c =? 47)%N then [] else [c]
      | r => c :: r
      end
  end.

(** [s.startsWith(prefix)] *)
Fixpoint startsWith (prefix s : Js.jsstring) : bool :=
  match prefix, s with
  | [], _ => true
  | p :: prefix', c :: s' => (c =? p)%N && startsWith prefix' s'
  | _ :: _, [] => false
  end.

(** [getApiBaseUrl] of [api/client.js]; the [return] inside its [try] always
    runs. *)
Definition getApiBaseUrl (env : Env) : Js.jsstring :=
  let envBase :=
    or_empty (or (or (env "REACT_APP_API_BASE") (env "REACT_APP_BACKEND_URL"))
                (Some [])) in
  match envBase with
  | _ :: _ => strip_slashes envBase
  | [] => Js.lit "/api"
  end.

(** The [url] that [apiRequest] of [api/client.js] fetches. *)
Definition request_url (env : Env) (path : Js.jsstring) : Js.jsstring :=
  let base := getApiBaseUrl env in
  (if startsWith (Js.lit "http") base then base else [])
  ++ (if startsWith (Js.lit "http") base then path else base ++ path).

End Config.

(** The other version of the API client in the repository. *)
Module ConfigAlt.

(** [getApiBaseUrl] *)
Definition getApiBaseUrl (env : Config.Env) : Js.jsstring :=
  let apiBase := Js.trim (Config.or_empty (Config.or (env "REACT_APP_API_BASE")
                                             (Some []))) in
  match apiBase with
  | _ :: _ => Config.strip_slashes apiBase
  | [] =>
      let backendUrl :=
        Js.trim (Config.or_empty (Config.or (env "REACT_APP_BACKEND_URL")
                                    (Some []))) in
      match backendUrl with
      | _ :: _ =>
          let normalized := Config.strip_slashes backendUrl in
          normalized ++ Js.lit "/api"
      | [] => Js.lit "http://localhost:4000/api"
      end
  end.

(** The [url] that [apiRequest] fetches. *)
Definition request_url (env : Config.Env) (path : Js.jsstring)
    : Js.jsstring :=
  let base := getApiBaseUrl env in
  Config.strip_slashes base
  ++ (if Config.startsWith [47%N] path then path else 47%N :: path).

End ConfigAlt.

(** * Properties *)

(** ** [trim] *)

Section TrimFacts.

Implicit Types (c : N) (s r : Js.jsstring).

Lemma trimStart_head s :
  match Js.trimStart s with
  | [] => True
  | c :: _ => Js.isWhiteSpace c = false
  end.
Proof.
  induction s as [|c s IH]; simpl; [exact I|].
  destruct (Js.isWhiteSpace c) eqn:Hc; [exact IH | exact Hc].
Qed.

Lemma trimEnd_cons_keep c s :
  Js.isWhiteSpace c = false -> Js.trimEnd (c :: s) = c :: Js.trimEnd s.
Proof.
  intros Hc. simpl. rewrite Hc. destruct (Js.trimEnd s); reflexivity.
Qed.

Lemma trimEnd_idem s : Js.trimEnd (Js.trimEnd s) = Js.trimEnd s.
Proof.
  induction s as [|c s IH]; [reflexivity|].
  simpl. destruct (Js.trimEnd s) as [|d r] eqn:Hr.
  - destruct (Js.isWhiteSpace c) eqn:Hc; [reflexivity|].
    simpl. rewrite Hc. reflexivity.
  - change (Js.trimEnd (c :: d :: r)) with
      (match Js.trimEnd (d :: r) with
       | [] => if Js.isWhiteSpace c then [] else [c]
       | x => c :: x
       end).
    rewrite IH. reflexivity.
Qed.

Lemma trimStart_trim s : Js.trimStart (Js.trim s) = Js.trim s.
Proof.
  unfold Js.trim. pose proof (trimStart_head s) as H.
  destruct (Js.trimStart s) as [|c r]; [reflexivity|].
  rewrite (trimEnd_cons_keep _ _ H). simpl. rewrite H. reflexivity.
Qed.

Lemma trim_idem s : Js.trim (Js.trim s) = Js.trim s.
Proof.
  unfold Js.trim at 1. rewrite trimStart_trim.
  unfold Js.trim. apply trimEnd_idem.
Qed.

(** [trim] against its description: it removes a run of white space at
    each end, and what is left neither starts nor ends with white space. *)

Lemma trimStart_decompose s :
  exists l, s = l ++ Js.trimStart s /\ Js.blank l.
Proof.
  induction s as [|c s (l & Hs & Hl)]; simpl.
  - exists []. split; [reflexivity|constructor].
  - destruct (Js.isWhiteSpace c) eqn:Hc.
    + exists (c :: l). split; [simpl; congruence|constructor; assumption].
    + exists []. split; [reflexivity|constructor].
Qed.

Lemma trimEnd_decompose s :
  exists r, s = Js.trimEnd s ++ r /\ Js.blank r.
Proof.
  induction s as [|c s (r & Hs & Hr)]; simpl.
  - exists []. split; [reflexivity|constructor].
  - destruct (Js.trimEnd s) as [|d t].
    + simpl in Hs. subst s. destruct (Js.isWhiteSpace c) eqn:Hc.
      * exists (c :: r). split; [reflexivity|constructor; assumption].
      * exists r. split; [reflexivity|assumption].
    + exists r. split; [simpl in *; congruence|assumption].
Qed.

Lemma trimEnd_last s c :
  last (Js.trimEnd s) = Some c -> Js.isWhiteSpace c = false.
Proof.
  induction s as [|d s IH]; simpl; [discriminate|].
  destruct (Js.trimEnd s) as [|e t].
  - destruct (Js.isWhiteSpace d) eqn:Hd; simpl; [discriminate|congruence].
  - exact IH.
Qed.

Lemma trim_decompose s :
  exists l r, s = l ++ Js.trim s ++ r /\ Js.blank l /\ Js.blank r.
Proof.
  destruct (trimStart_decompose s) as (l & Hs & Hl).
  destruct (trimEnd_decompose (Js.trimStart s)) as (r & Ht & Hr).
  exists l, r. unfold Js.trim. rewrite <- Ht. auto.
Qed.

Lemma trim_ends s c :
  head (Js.trim s) = Some c \/ last (Js.trim s) = Some c ->
  Js.isWhiteSpace c = false.
Proof.
  intros [H|H].
  - rewrite <- trimStart_trim in H. pose proof (trimStart_head (Js.trim s)).
    destruct (Js.trimStart (Js.trim s)); simpl in H; congruence.
  - eapply trimEnd_last. exact H.
Qed.

Lemma trim_nil_iff s : Js.trim s = [] <-> Js.blank s.
Proof.
  split.
  - intros H. destruct (trim_decompose s) as (l & r & Hs & Hl & Hr).
    rewrite H in Hs. rewrite Hs. apply Forall_app. auto.
  - unfold Js.trim. induction 1 as [|c s Hc _ IH]; [reflexivity|].
    simpl. rewrite Hc. exact IH.
Qed.

(** *** Unpaired surrogates *)

Lemma whitespace_not_surrogate c :
  Js.isWhiteSpace c = true -> Js.is_high c = false /\ Js.is_low c = false.
Proof.
  unfold Js.isWhiteSpace, Js.is_high, Js.is_low. intros H.
  repeat (rewrite ?orb_true_iff, ?andb_true_iff, ?N.leb_le, ?N.eqb_eq in H).
  split; apply andb_false_iff; rewrite !N.leb_gt; lia.
Qed.

Lemma surrogate_not_whitespace c :
  Js.is_high c = true \/ Js.is_low c = true -> Js.isWhiteSpace c = false.
Proof.
  intros H. destruct (Js.isWhiteSpace c) eqn:E; [|reflexivity].
  apply whitespace_not_surrogate in E as [E1 E2].
  destruct H; congruence.
Qed.

Lemma toWellFormed_pair c d s :
  Js.is_high c = true -> Js.is_low d = true ->
  Js.toWellFormed (c :: d :: s) = c :: d :: Js.toWellFormed s.
Proof.
  intros Hc Hd.
  change (Js.toWellFormed (c :: d :: s)) with
    (if Js.is_high c
     then if Js.is_low d then c :: d :: Js.toWellFormed s
          else 65533%N :: Js.toWellFormed (d :: s)
     else if Js.is_low c then 65533%N :: Js.toWellFormed (d :: s)
          else c :: Js.toWellFormed (d :: s)).
  rewrite Hc, Hd. reflexivity.
Qed.

Lemma toWellFormed_lone c s :
  (Js.is_high c = true -> match s with
                          | d :: _ => Js.is_low d = false
                          | [] => True
                          end) ->
  Js.is_high c = true \/ Js.is_low c = true ->
  Js.toWellFormed (c :: s) = 65533%N :: Js.toWellFormed s.
Proof.
  intros Hnext Hc.
  destruct s as [|d s].
  - simpl. destruct (Js.is_high c); [reflexivity|].
    destruct Hc as [Hc|Hc]; [discriminate|]. rewrite Hc. reflexivity.
  - change (Js.toWellFormed (c :: d :: s)) with
      (if Js.is_high c
       then if Js.is_low d then c :: d :: Js.toWellFormed s
            else 65533%N :: Js.toWellFormed (d :: s)
       else if Js.is_low c then 65533%N :: Js.toWellFormed (d :: s)
            else c :: Js.toWellFormed (d :: s)).
    destruct (Js.is_high c) eqn:E.
    + rewrite Hnext by reflexivity. reflexivity.
    + destruct Hc as [Hc|Hc]; [discriminate|]. rewrite Hc. reflexivity.
Qed.

Lemma toWellFormed_plain c s :
  Js.is_high c = false -> Js.is_low c = false ->
  Js.toWellFormed (c :: s) = c :: Js.toWellFormed s.
Proof.
  intros Hh Hl. destruct s as [|d s].
  - simpl. rewrite Hh, Hl. reflexivity.
  - change (Js.toWellFormed (c :: d :: s)) with
      (if Js.is_high c
       then if Js.is_low d then c :: d :: Js.toWellFormed s
            else 65533%N :: Js.toWellFormed (d :: s)
       else if Js.is_low c then 65533%N :: Js.toWellFormed (d :: s)
            else c :: Js.toWellFormed (d :: s)).
    rewrite Hh, Hl. reflexivity.
Qed.

(** The first code unit stays or becomes U+FFFD: white space it is not,
    unless it was. *)
Lemma toWellFormed_cons c s :
  exists x rest,
    Js.toWellFormed (c :: s) = x :: rest
    /\ Js.isWhiteSpace x = Js.isWhiteSpace c.
Proof.
  destruct (Js.is_high c) eqn:Hh; [|destruct (Js.is_low c) eqn:Hl].
  - rewrite (surrogate_not_whitespace c) by auto.
    destruct s as [|d s]; [simpl; rewrite Hh; eauto|].
    destruct (Js.is_low d) eqn:Hd.
    + rewrite toWellFormed_pair by assumption.
      eexists _, _. split; [reflexivity|].
      apply surrogate_not_whitespace. auto.
    + rewrite toWellFormed_lone by (auto; intros _; exact Hd). eauto.
  - rewrite (surrogate_not_whitespace c) by auto.
    rewrite toWellFormed_lone by (auto; intros; congruence). eauto.
  - rewrite toWellFormed_plain by assumption. eauto.
Qed.

Lemma toWellFormed_nil_iff s : Js.toWellFormed s = [] <-> s = [].
Proof.
  split; [|intros ->; reflexivity].
  destruct s as [|c s]; [reflexivity|].
  destruct (toWellFormed_cons c s) as (x & rest & -> & _). discriminate.
Qed.

Lemma toWellFormed_trimStart s :
  Js.toWellFormed (Js.trimStart s) = Js.trimStart (Js.toWellFormed s).
Proof.
  induction s as [|c s IH]; [reflexivity|]. simpl Js.trimStart at 1.
  destruct (Js.isWhiteSpace c) eqn:Hc.
  - destruct (whitespace_not_surrogate c Hc) as [Hh Hl].
    rewrite toWellFormed_plain by assumption. simpl. rewrite Hc. exact IH.
  - destruct (toWellFormed_cons c s) as (x & rest & E & Hx).
    rewrite E. simpl. rewrite Hx, Hc. reflexivity.
Qed.

Lemma trimEnd_cons_head c s :
  Js.trimEnd (c :: s) = [] \/ exists r, Js.trimEnd (c :: s) = c :: r.
Proof.
  simpl. destruct (Js.trimEnd s); [|eauto].
  destruct (Js.isWhiteSpace c); eauto.
Qed.

Lemma toWellFormed_trimEnd_le n :
  forall s, (length s <= n)%nat ->
            Js.toWellFormed (Js.trimEnd s) = Js.trimEnd (Js.toWellFormed s).
Proof.
  induction n as [|n IH]; intros [|c s] Hn; try reflexivity;
    simpl in Hn; [lia|].
  assert (length s <= n)%nat as Hs by lia.
  destruct (Js.is_high c) eqn:Hh; [|destruct (Js.is_low c) eqn:Hl].
  - pose proof (surrogate_not_whitespace c (or_introl Hh)) as Hc.
    rewrite (trimEnd_cons_keep c s Hc).
    destruct s as [|d s].
    + simpl. rewrite Hh. reflexivity.
    + destruct (Js.is_low d) eqn:Hd.
      * pose proof (surrogate_not_whitespace d (or_intror Hd)) as Hdw.
        rewrite (trimEnd_cons_keep d s Hdw).
        rewrite !toWellFormed_pair by assumption.
        rewrite (trimEnd_cons_keep c _ Hc), (trimEnd_cons_keep d _ Hdw).
        rewrite IH by (simpl in Hs; lia). reflexivity.
      * rewrite (toWellFormed_lone c (d :: s)) by (auto; intros _; exact Hd).
        rewrite (trimEnd_cons_keep 65533%N) by reflexivity.
        rewrite <- IH by exact Hs.
        apply toWellFormed_lone; [|auto].
        intros _. destruct (trimEnd_cons_head d s) as [->|[r ->]];
          [exact I|exact Hd].
  - pose proof (surrogate_not_whitespace c (or_intror Hl)) as Hc.
    rewrite (trimEnd_cons_keep c s Hc).
    rewrite !toWellFormed_lone by (auto; intros; congruence).
    rewrite (trimEnd_cons_keep 65533%N) by reflexivity.
    rewrite IH by exact Hs. reflexivity.
  - rewrite (toWellFormed_plain c s) by assumption.
    simpl Js.trimEnd. rewrite <- IH by exact Hs.
    destruct (Js.trimEnd s) as [|e r] eqn:E.
    + simpl. destruct (Js.isWhiteSpace c); [reflexivity|].
      simpl. rewrite Hh, Hl. reflexivity.
    + rewrite toWellFormed_plain by assumption.
      destruct (toWellFormed_cons e r) as (x & rest & -> & _). reflexivity.
Qed.

(** Trimming and the UTF-8 round trip commute: neither a surrogate nor
    U+FFFD is white space. *)
Lemma toWellFormed_trim s :
  Js.toWellFormed (Js.trim s) = Js.trim (Js.toWellFormed s).
Proof.
  unfold Js.trim. rewrite <- toWellFormed_trimStart.
  apply (toWellFormed_trimEnd_le (length (Js.trimStart s))). lia.
Qed.

(** What a TEXT column holds for a trimmed string is trimmed. *)
Lemma text_trim_trimmed s :
  Js.trim (Db.text (Js.trim s)) = Db.text (Js.trim s).
Proof.
  unfold Db.text. rewrite <- toWellFormed_trim, trim_idem. reflexivity.
Qed.

(** A well-formed string stays well formed when trimmed, and a TEXT column
    holds it as it is. *)
Lemma text_trim_well_formed s :
  Js.isWellFormed s -> Db.text (Js.trim s) = Js.trim s.
Proof.
  unfold Js.isWellFormed, Db.text. intros H.
  rewrite toWellFormed_trim, H. reflexivity.
Qed.

Example toWellFormed_lone_surrogates :
  Js.toWellFormed [97; 55296; 98; 55357; 56832; 56320]%N
  = [97; 65533; 98; 55357; 56832; 65533]%N.
Proof. reflexivity. Qed.

Example trim_inner_space :
  Js.trim (Js.lit "  Buy  milk ") = Js.lit "Buy  milk".
Proof. reflexivity. Qed.

Example trim_unicode_space : Js.trim [160; 9; 8232; 65; 12288]%N = [65%N].
Proof. reflexivity. Qed.

End TrimFacts.

(** ** The task table *)

Section TableFacts.

Implicit Types (db : Db.Database) (i j : Z) (r : Db.Row) (now : string).

Lemma select_by_id_Some db i r :
  Db.tasks db !! i = Some r -> Db.select_by_id db i = Some (i, r).
Proof. unfold Db.select_by_id. intros ->. reflexivity. Qed.

Lemma getTaskById_Some db i r :
  Db.tasks db !! i = Some r ->
  Db.getTaskById db i = Some (Db.todo_of_row (i, r)).
Proof.
  intros H. unfold Db.getTaskById. rewrite (select_by_id_Some _ _ _ H).
  reflexivity.
Qed.

Lemma getTaskById_None db i :
  Db.tasks db !! i = None -> Db.getTaskById db i = None.
Proof.
  intros H. unfold Db.getTaskById, Db.select_by_id. rewrite H. reflexivity.
Qed.

(** What [createTask] does, in one equation per component. *)
Lemma createTask_spec db title completed now :
  let i := Db.next_rowid db in
  let r := {| Db.title := Db.text (Js.trim (Js.String_or_empty title));
              Db.completed := if default false completed then 1 else 0;
              Db.created_at := now;
              Db.updated_at := None |} in
  Db.createTask db title completed now =
    ({| Db.tasks := <[i := r]> (Db.tasks db); Db.sqlite_sequence := i |},
     Some (Db.todo_of_row (i, r))).
Proof.
  intros i r. unfold Db.createTask. fold i. f_equal.
  unfold Db.select_by_id. cbn [Db.tasks]. rewrite lookup_insert_eq.
  reflexivity.
Qed.

(** An UPDATE that finds no row changes nothing. *)
Lemma run_update_missing db fields i :
  Db.tasks db !! i = None -> Db.run_update db fields i = (db, 0).
Proof.
  intros H. unfold Db.run_update. rewrite H.
  rewrite alter_id' by exact H.
  destruct db; reflexivity.
Qed.

Lemma updateTask_missing db i updates now :
  Db.tasks db !! i = None -> Db.updateTask db i updates now = (db, None).
Proof.
  intros H. unfold Db.updateTask.
  destruct (_ =? 1)%nat.
  - rewrite (getTaskById_None _ _ H). reflexivity.
  - rewrite (run_update_missing _ _ _ H). reflexivity.
Qed.

(** [createTask] itself does not look at the title it stores: the check for
    a blank title is made by its callers. *)
Example createTask_blank_title :
  Api.title <$>
    (Db.createTask Db.initDatabase (Some (Js.lit "   ")) None Sample.monday).2
  = Some [].
Proof. reflexivity. Qed.

End TableFacts.

Section CreateAndUpdate.

Implicit Types (db : Db.Database) (i j : Z) (r : Db.Row) (now : string).

Lemma foldr_max_ub (l : list Z) i : i ∈ l -> i <= foldr Z.max 0 l.
Proof.
  induction 1 as [x l|x y l _ IH]; simpl; lia.
Qed.

Lemma foldr_max_nonneg (l : list Z) : 0 <= foldr Z.max 0 l.
Proof. induction l; simpl; lia. Qed.

Lemma foldr_max_least (l : list Z) b :
  0 <= b -> (forall i, i ∈ l -> i <= b) -> foldr Z.max 0 l <= b.
Proof.
  intros Hb. induction l as [|x l IH]; simpl; intros H; [exact Hb|].
  apply Z.max_lub.
  - apply H. left.
  - apply IH. intros i Hi. apply H. right. exact Hi.
Qed.

Lemma max_rowid_ub (t : gmap Z Db.Row) i :
  is_Some (t !! i) -> i <= Db.max_rowid t.
Proof.
  intros [r Hr]. apply foldr_max_ub.
  apply list_elem_of_fmap. exists (i, r). split; [reflexivity|].
  apply elem_of_map_to_list. exact Hr.
Qed.

Lemma max_rowid_least (t : gmap Z Db.Row) b :
  0 <= b -> (forall i, is_Some (t !! i) -> i <= b) -> Db.max_rowid t <= b.
Proof.
  intros Hb H. apply foldr_max_least; [exact Hb|].
  intros i Hi. apply list_elem_of_fmap in Hi as [[k r] [-> Hkr]].
  apply H. exists r. apply elem_of_map_to_list. exact Hkr.
Qed.

(** The id an insert picks is not in the table. *)
Lemma next_rowid_fresh db : Db.tasks db !! Db.next_rowid db = None.
Proof.
  destruct (Db.tasks db !! Db.next_rowid db) as [r|] eqn:H; [|reflexivity].
  assert (Db.next_rowid db <= Db.max_rowid (Db.tasks db)) as Hle
    by (apply max_rowid_ub; eauto).
  unfold Db.next_rowid in Hle. lia.
Qed.

(** C2, as the code has it.  POST /todos with a title whose trim is empty
    answers 400 and leaves the table as it was; with a title whose trim is
    not empty it answers 201 with a task whose title is the trimmed input as
    the TEXT column holds it, unpaired surrogates replaced by U+FFFD, hence
    the trimmed input itself when the input is well formed; the task is
    stored in a row that did not exist before, every other row being left
    alone. *)
Theorem post_todos_title_validation db (title : Js.jsstring) completed now :
  (Js.trim title = [] ->
   Server.post_todos db (Some title) completed now =
     (db, {| Server.status := 400;
             Server.body := Server.JsonMessage "Title is required" |}))
  /\ (Js.trim title <> [] ->
      exists db' t,
        Server.post_todos db (Some title) completed now =
          (db', {| Server.status := 201;
                   Server.body := Server.JsonTodo (Some t) |})
        /\ Api.title t = Js.toWellFormed (Js.trim title)
        /\ (Js.isWellFormed title -> Api.title t = Js.trim title)
        /\ Api.title t <> []
        /\ Db.tasks db !! Api.id t = None
        /\ Db.title <$> Db.tasks db' !! Api.id t = Some (Api.title t)
        /\ forall j, j <> Api.id t -> Db.tasks db' !! j = Db.tasks db !! j).
Proof.
  split; intros H; unfold Server.post_todos;
    change (Js.String_or_empty (Some title)) with title; cbv zeta.
  - rewrite H. reflexivity.
  - destruct (Js.trim title) as [|c s] eqn:Ht; [congruence|].
    rewrite createTask_spec.
    change (Js.String_or_empty (Some (c :: s))) with (c :: s).
    rewrite <- Ht, trim_idem.
    eexists _, _. split; [reflexivity|].
    cbn [Db.todo_of_row Api.title Api.id fst snd Db.title Db.tasks].
    split; [reflexivity|].
    split; [intros Hwf; apply text_trim_well_formed; exact Hwf|].
    split; [unfold Db.text; rewrite toWellFormed_nil_iff, Ht; discriminate|].
    split; [apply next_rowid_fresh|].
    split; [rewrite lookup_insert_eq; reflexivity|].
    intros j Hj. rewrite lookup_insert_ne by congruence. reflexivity.
Qed.

Lemma post_todos_title_validation_witness :
  Server.status (Server.post_todos Db.initDatabase (Some (Js.lit "   ")) None
                   Sample.monday).2 = 400
  /\ exists db' t,
      Server.post_todos Db.initDatabase (Some (Js.lit " Buy milk ")) None
        Sample.monday =
        (db', {| Server.status := 201;
                 Server.body := Server.JsonTodo (Some t) |})
      /\ Api.title t = Js.lit "Buy milk".
Proof.
  split.
  - destruct (post_todos_title_validation Db.initDatabase (Js.lit "   ") None
                Sample.monday) as [H _].
    rewrite H by reflexivity. reflexivity.
  - destruct (post_todos_title_validation Db.initDatabase
                (Js.lit " Buy milk ") None Sample.monday) as [_ H].
    destruct H as (db' & t & H1 & _ & H2 & _); [vm_compute; discriminate|].
    exists db', t. split; [exact H1|]. rewrite H2; reflexivity.
Defined.

(** C2 as stated fails: the title [\udc00 x] has a trim that is not empty,
    the POST answers 201, and the title of the task it returns starts with
    U+FFFD: it is not the trimmed input. *)
Lemma post_todos_lone_surrogate :
  Js.trim [56320; 32; 120]%N = [56320; 32; 120]%N
  /\ (Server.post_todos Db.initDatabase (Some [56320; 32; 120]%N) None
        Sample.monday).2
     = {| Server.status := 201;
          Server.body :=
            Server.JsonTodo
              (Some {| Api.id := 1; Api.title := [65533; 32; 120]%N;
                       Api.completed := false;
                       Api.createdAt := Sample.monday;
                       Api.updatedAt := None |}) |}.
Proof. split; reflexivity. Qed.

(** C1, as the code has it.  [updateTask] with neither [title] nor
    [completed] writes nothing: the database is returned as it was,
    [updated_at] included, with the current view of the task; and for an id
    with no row, whatever the updates, it resolves to [null] and the database
    is as it was. *)
Theorem updateTask_without_fields db i now :
  (forall r, Db.tasks db !! i = Some r ->
     Db.updateTask db i Sample.no_fields now =
       (db, Some (Db.todo_of_row (i, r))))
  /\ (forall updates, Db.tasks db !! i = None ->
      Db.updateTask db i updates now = (db, None)).
Proof.
  split.
  - intros r H. unfold Db.updateTask. simpl.
    rewrite (getTaskById_Some _ _ _ H). reflexivity.
  - intros updates H. apply updateTask_missing. exact H.
Qed.

Lemma updateTask_without_fields_witness :
  (Db.updateTask Sample.one_task 1 Sample.no_fields Sample.tuesday).1 =
    Sample.one_task
  /\ Db.updateTask Sample.one_task 2 Sample.done Sample.tuesday =
     (Sample.one_task, None).
Proof.
  destruct (updateTask_without_fields Sample.one_task 1 Sample.tuesday)
    as [H _].
  destruct (updateTask_without_fields Sample.one_task 2 Sample.tuesday)
    as [_ H'].
  split.
  - erewrite H; [reflexivity|]. vm_compute. reflexivity.
  - apply H'. vm_compute. reflexivity.
Defined.

(** C1 as stated fails: the task exists, the update supplies no field, and
    [updatedAt] is still [null] afterwards, in the returned task and in the
    row, not the instant of the call. *)
Lemma updateTask_without_fields_no_refresh :
  is_Some (Db.tasks Sample.one_task !! 1)
  /\ Api.updatedAt <$>
       (Db.updateTask Sample.one_task 1 Sample.no_fields Sample.tuesday).2
     = Some None
  /\ Db.updated_at <$>
       Db.tasks
         (Db.updateTask Sample.one_task 1 Sample.no_fields Sample.tuesday).1
       !! 1
     = Some None.
Proof.
  split; [|split]; vm_compute; eauto.
Qed.

(** C5.  [updateTask(id, {completed: true})] on an existing task rewrites
    [completed] and [updated_at] of that row and nothing else: the row keeps
    its title and creation date under the same id, every other row and the
    id counter are as before, and the returned task shows the same. *)
Theorem updateTask_completed_frame db i r now :
  Db.tasks db !! i = Some r ->
  exists db' t,
    Db.updateTask db i Sample.done now = (db', Some t)
    /\ Db.tasks db' !! i =
         Some {| Db.title := Db.title r; Db.completed := 1;
                 Db.created_at := Db.created_at r;
                 Db.updated_at := Some now |}
    /\ (forall j, j <> i -> Db.tasks db' !! j = Db.tasks db !! j)
    /\ Db.sqlite_sequence db' = Db.sqlite_sequence db
    /\ Api.id t = i
    /\ Api.title t = Db.title r
    /\ Api.createdAt t = Db.created_at r
    /\ Api.completed t = true.
Proof.
  intros H. unfold Db.updateTask, Db.run_update. simpl. rewrite H. simpl.
  unfold Db.select_by_id. simpl. rewrite lookup_alter_eq, H. simpl.
  eexists _, _. split; [reflexivity|]. simpl.
  rewrite lookup_alter_eq, H. simpl.
  split; [reflexivity|].
  split; [intros j Hj; rewrite lookup_alter_ne by congruence; reflexivity|].
  repeat split; reflexivity.
Qed.

Lemma updateTask_completed_frame_witness :
  exists db' t,
    Db.updateTask Sample.one_task 1 Sample.done Sample.tuesday = (db', Some t)
    /\ Api.title t = Js.lit "Buy milk"
    /\ Api.createdAt t = Sample.monday
    /\ Api.completed t = true.
Proof.
  destruct (updateTask_completed_frame Sample.one_task 1
              {| Db.title := Js.lit "Buy milk"; Db.completed := 0;
                 Db.created_at := Sample.monday; Db.updated_at := None |}
              Sample.tuesday)
    as (db' & t & H & _ & _ & _ & _ & Ht & Hc & Hd).
  - vm_compute. reflexivity.
  - exists db', t. repeat split; assumption.
Defined.

End CreateAndUpdate.

(** ** The order of the list *)

Section Ordering.

Implicit Types (a b c : Z * Db.Row) (db : Db.Database).

Lemma compare_Gt_Lt (x y : string) :
  String.compare x y = Gt <-> String.compare y x = Lt.
Proof.
  rewrite (String.compare_antisym y x).
  destruct (String.compare x y); simpl; split; congruence.
Qed.

Lemma compare_Lt_trans (x y z : string) :
  String.compare x y = Lt -> String.compare y z = Lt ->
  String.compare x z = Lt.
Proof.
  intros H1 H2. apply String_as_OT.cmp_lt.
  apply String_as_OT.lt_trans with y; apply String_as_OT.cmp_lt; assumption.
Qed.

#[local] Instance order_by_total : Total Db.order_by.
Proof.
  intros a b. unfold Db.order_by.
  rewrite (String.compare_antisym (Db.created_at b.2) (Db.created_at a.2)).
  destruct (String.compare (Db.created_at a.2) (Db.created_at b.2)); simpl.
  - lia.
  - right. exact I.
  - left. exact I.
Qed.

#[local] Instance order_by_trans : Transitive Db.order_by.
Proof.
  intros a b c. unfold Db.order_by.
  destruct (String.compare (Db.created_at a.2) (Db.created_at b.2)) eqn:Hab;
    [|intros []|].
  - apply String.compare_eq_iff in Hab. rewrite Hab.
    destruct (String.compare (Db.created_at b.2) (Db.created_at c.2));
      [lia|intros _ []|trivial].
  - destruct (String.compare (Db.created_at b.2) (Db.created_at c.2)) eqn:Hbc;
      [|intros _ []|].
    + apply String.compare_eq_iff in Hbc. rewrite <- Hbc, Hab. trivial.
    + intros _ _. apply compare_Gt_Lt in Hab, Hbc.
      rewrite (proj2 (compare_Gt_Lt _ _) (compare_Lt_trans _ _ _ Hbc Hab)).
      exact I.
Qed.

(** Two rows in the order of the query, with different ids, are strictly
    ordered as tasks. *)
Lemma order_by_newer a b :
  Db.order_by a b -> a.1 <> b.1 ->
  Trace.newer (Db.todo_of_row a) (Db.todo_of_row b).
Proof.
  unfold Db.order_by, Trace.newer. simpl. intros H Hne.
  destruct (String.compare (Db.created_at a.2) (Db.created_at b.2)) eqn:Hab.
  - right. apply String.compare_eq_iff in Hab. split; [exact Hab|lia].
  - destruct H.
  - left. apply compare_Gt_Lt. exact Hab.
Qed.

Lemma sorted_rows_newer (l : list (Z * Db.Row)) :
  StronglySorted Db.order_by l -> NoDup l.*1 ->
  StronglySorted Trace.newer (Db.todo_of_row <$> l).
Proof.
  induction 1 as [|a l Hl IH Ha]; intros Hnd; simpl; [constructor|].
  apply NoDup_cons in Hnd as [Hnotin Hnd].
  constructor; [apply IH; exact Hnd|].
  apply Forall_fmap, Forall_forall. intros b Hb. simpl.
  apply order_by_newer.
  - eapply Forall_forall in Ha; eassumption.
  - intros Heq. apply Hnotin. rewrite Heq.
    apply list_elem_of_fmap. exists b. split; [reflexivity|exact Hb].
Qed.

Lemma select_all_perm db : Db.select_all db ≡ₚ map_to_list (Db.tasks db).
Proof. apply merge_sort_Permutation. Qed.

(** The tasks listed are the rows of the table. *)
Lemma getAllTasks_elem db t :
  t ∈ Db.getAllTasks db <->
  exists i r, Db.tasks db !! i = Some r /\ t = Db.todo_of_row (i, r).
Proof.
  unfold Db.getAllTasks. rewrite list_elem_of_fmap. split.
  - intros [[i r] [-> H]]. exists i, r. split; [|reflexivity].
    rewrite (select_all_perm db) in H. apply elem_of_map_to_list. exact H.
  - intros (i & r & H & ->). exists (i, r). split; [reflexivity|].
    rewrite (select_all_perm db). apply elem_of_map_to_list. exact H.
Qed.

(** C4.  [getAllTasks] lists every row of the table exactly once, each task
    before the ones created earlier and, among tasks created at the same
    instant, before the ones with a smaller id. *)
Theorem getAllTasks_newest_first db :
  StronglySorted Trace.newer (Db.getAllTasks db)
  /\ Db.getAllTasks db ≡ₚ Db.todo_of_row <$> map_to_list (Db.tasks db)
  /\ (forall t, t ∈ Db.getAllTasks db <->
                exists i r, Db.tasks db !! i = Some r
                            /\ t = Db.todo_of_row (i, r)).
Proof.
  split; [|split].
  - apply sorted_rows_newer.
    + apply StronglySorted_merge_sort; apply _.
    + rewrite (select_all_perm db). apply NoDup_fst_map_to_list.
  - unfold Db.getAllTasks. rewrite (select_all_perm db). reflexivity.
  - intros t. apply getAllTasks_elem.
Qed.

End Ordering.

(** ** Deleted ids stay deleted *)

Section Delete.

Implicit Types (db : Db.Database) (i j : Z) (op : Trace.Op).

Lemma updateTask_keys db i updates now j :
  is_Some (Db.tasks (Db.updateTask db i updates now).1 !! j)
  <-> is_Some (Db.tasks db !! j).
Proof.
  unfold Db.updateTask. destruct (_ =? 1)%nat; [reflexivity|].
  unfold Db.run_update.
  destruct (_ =? 0); simpl; apply lookup_alter_is_Some.
Qed.

Lemma updateTask_sequence db i updates now :
  Db.sqlite_sequence (Db.updateTask db i updates now).1
  = Db.sqlite_sequence db.
Proof.
  unfold Db.updateTask. destruct (_ =? 1)%nat; [reflexivity|].
  unfold Db.run_update. destruct (_ =? 0); reflexivity.
Qed.

Lemma spent_step i db op :
  Trace.spent i db -> Trace.spent i (Trace.step db op).
Proof.
  intros (Hok & Hi & Hnone). unfold Trace.autoincrement_ok in Hok.
  pose proof (foldr_max_nonneg (map_to_list (Db.tasks db)).*1) as H0.
  fold (Db.max_rowid (Db.tasks db)) in H0.
  destruct op as [title completed now|k updates now|k|]; cbn [Trace.step].
  - rewrite createTask_spec. cbn zeta.
    unfold Trace.spent, Trace.autoincrement_ok.
    simpl. unfold Db.next_rowid. split; [|split].
    + apply max_rowid_least; [lia|]. intros j Hj.
      apply lookup_insert_is_Some in Hj as [<-|[_ Hj]]; [lia|].
      apply max_rowid_ub in Hj. lia.
    + lia.
    + rewrite lookup_insert_ne by lia. exact Hnone.
  - unfold Trace.spent, Trace.autoincrement_ok.
    rewrite updateTask_sequence. split; [|split].
    + apply max_rowid_least; [lia|]. intros j Hj.
      apply updateTask_keys, max_rowid_ub in Hj. lia.
    + exact Hi.
    + apply eq_None_not_Some. rewrite updateTask_keys.
      rewrite Hnone. apply is_Some_None.
  - unfold Trace.spent, Trace.autoincrement_ok. simpl. split; [|split].
    + apply max_rowid_least; [lia|]. intros j Hj.
      apply lookup_delete_is_Some in Hj as [_ Hj].
      apply max_rowid_ub in Hj. lia.
    + exact Hi.
    + apply lookup_delete_None. right. exact Hnone.
  - split; [|split]; assumption.
Qed.

Lemma spent_run i ops :
  forall db, Trace.spent i db -> Trace.spent i (Trace.run db ops).
Proof.
  unfold Trace.run.
  induction ops as [|op ops IH]; intros db H; simpl; [exact H|].
  apply IH, spent_step, H.
Qed.

(** Every database the helper layer builds from an empty table keeps the
    counter above the row ids. *)
Lemma autoincrement_ok_run ops :
  Trace.autoincrement_ok (Trace.run Db.initDatabase ops).
Proof.
  apply (spent_run 0 ops Db.initDatabase).
  split; [|split]; vm_compute; congruence.
Qed.

(** C6.  [deleteTask(id)] deletes the row with that id and resolves to
    [true] exactly when there was one; after such a delete, whatever calls
    follow, [getAllTasks] never lists a task with that id and
    [deleteTask(id)] resolves to [false]. *)
Theorem deleteTask_for_good db i :
  Trace.autoincrement_ok db ->
  Db.tasks (Db.deleteTask db i).1 = delete i (Db.tasks db)
  /\ ((Db.deleteTask db i).2 = true <-> is_Some (Db.tasks db !! i))
  /\ ((Db.deleteTask db i).2 = true ->
      forall ops,
        let later := Trace.run (Db.deleteTask db i).1 ops in
        (forall t, t ∈ Db.getAllTasks later -> Api.id t <> i)
        /\ (Db.deleteTask later i).2 = false).
Proof.
  intros Hok.
  assert ((Db.deleteTask db i).2 = true <-> is_Some (Db.tasks db !! i))
    as Hiff.
  { simpl. destruct (Db.tasks db !! i) as [r|]; simpl; split;
      try reflexivity; try discriminate; eauto.
    intros H. apply is_Some_None in H. destruct H. }
  split; [reflexivity|]. split; [exact Hiff|].
  intros Hdel ops later.
  assert (Trace.spent i later) as (_ & _ & Hgone).
  { apply spent_run. split; [|split].
    - unfold Trace.autoincrement_ok in *. simpl.
      apply max_rowid_least.
      + pose proof (foldr_max_nonneg (map_to_list (Db.tasks db)).*1) as H0.
        fold (Db.max_rowid (Db.tasks db)) in H0. lia.
      + intros j Hj. apply lookup_delete_is_Some in Hj as [_ Hj].
        apply max_rowid_ub in Hj. lia.
    - simpl. apply Hiff, max_rowid_ub in Hdel.
      unfold Trace.autoincrement_ok in Hok. lia.
    - simpl. apply lookup_delete_eq. }
  split.
  - intros t Ht <-.
    apply getAllTasks_elem in Ht as (k & r & Hk & ->).
    simpl in Hgone. congruence.
  - simpl. rewrite Hgone. reflexivity.
Qed.

Lemma deleteTask_for_good_witness :
  (Db.deleteTask Sample.one_task 1).2 = true
  /\ forall ops,
      (forall t,
         t ∈ Db.getAllTasks (Trace.run (Db.deleteTask Sample.one_task 1).1 ops)
         -> Api.id t <> 1)
      /\ (Db.deleteTask (Trace.run (Db.deleteTask Sample.one_task 1).1 ops)
            1).2 = false.
Proof.
  destruct (deleteTask_for_good Sample.one_task 1) as (_ & _ & H).
  - vm_compute. discriminate.
  - split; [reflexivity|]. intros ops. apply H. reflexivity.
Defined.

End Delete.

(** ** Titles written through PUT *)

Section PutTitle.

(** C3 does not hold of PUT /todos/:id: a title whose trim is empty is
    written to the row, which then has the empty title. *)
Theorem put_todos_blank_title db i r title completed now :
  0 < i -> Db.tasks db !! i = Some r -> Js.trim title = [] ->
  exists db' t,
    Server.put_todos db (Some i) (Some title) completed now =
      (db', {| Server.status := 200; Server.body := Server.JsonTodo (Some t) |})
    /\ Api.title t = []
    /\ Db.title <$> Db.tasks db' !! i = Some [].
Proof.
  intros Hi Hr Ht. unfold Server.put_todos.
  destruct (i <=? 0) eqn:Hle; [lia|].
  unfold Db.updateTask, Db.run_update. cbn [Api.upd_title Api.upd_completed].
  change (Js.String_or_empty (Some title)) with title. rewrite Ht, Hr.
  unfold Db.select_by_id.
  destruct completed as [c|]; simpl; rewrite lookup_alter_eq, Hr; simpl;
    (eexists _, _; split; [reflexivity|]; simpl;
     rewrite lookup_alter_eq, Hr; split; reflexivity).
Qed.

Lemma put_todos_blank_title_witness :
  Db.title <$> Db.tasks Sample.one_task !! 1 = Some (Js.lit "Buy milk")
  /\ exists db',
      (Server.put_todos Sample.one_task (Some 1) (Some (Js.lit "   ")) None
         Sample.tuesday).1 = db'
      /\ Db.title <$> Db.tasks db' !! 1 = Some [].
Proof.
  split; [vm_compute; reflexivity|].
  destruct (put_todos_blank_title Sample.one_task 1
              {| Db.title := Js.lit "Buy milk"; Db.completed := 0;
                 Db.created_at := Sample.monday; Db.updated_at := None |}
              (Js.lit "   ") None Sample.tuesday)
    as (db' & t & H & _ & Hrow).
  - lia.
  - vm_compute. reflexivity.
  - reflexivity.
  - exists db'. rewrite H. split; [reflexivity|exact Hrow].
Defined.

End PutTitle.

(** ** The hook *)

Section HookFacts.

Import Hook.

Implicit Types (s curr : State) (i : Z) (updates : Api.Updates)
  (net : Network) (a : Async).

Lemma or_else_nonempty (x fallback : string) :
  fallback <> ""%string -> Js.or_else x fallback <> ""%string.
Proof. destruct x; simpl; [trivial|discriminate]. Qed.

(** Mapping over a list that has no task with the id changes nothing. *)
Lemma map_unknown_id (f : Api.Todo -> Api.Todo) i (l : list Api.Todo) :
  (forall t, t ∈ l -> Api.id t <> i) ->
  map (fun t => if Api.id t =? i then f t else t) l = l.
Proof.
  induction l as [|t l IH]; intros H; simpl; [reflexivity|].
  rewrite IH by (intros u Hu; apply H; right; exact Hu).
  destruct (Api.id t =? i) eqn:E; [|reflexivity].
  apply Z.eqb_eq in E. exfalso. apply (H t); [left|exact E].
Qed.

Lemma find_unknown_id i (l : list Api.Todo) :
  (forall t, t ∈ l -> Api.id t <> i) ->
  find (fun t => Api.id t =? i) l = None.
Proof.
  induction l as [|t l IH]; intros H; simpl; [reflexivity|].
  destruct (Api.id t =? i) eqn:E.
  - apply Z.eqb_eq in E. exfalso. apply (H t); [left|exact E].
  - apply IH. intros u Hu. apply H. right. exact Hu.
Qed.

(** C7, as the code has it.  When no local task has the id, [updateTodo]
    leaves the list as it was, at the await and however the request ends,
    and [toggleComplete] returns at once: no request, no change of state. *)
Theorem unknown_id_keeps_list s i updates :
  (forall t, t ∈ todos s -> Api.id t <> i) ->
  todos (at_await (updateTodo s i updates)) = todos s
  /\ (forall net,
       todos (complete (updateTodo s i updates) net) = todos s
       /\ loading (complete (updateTodo s i updates) net) = loading s)
  /\ issued (toggleComplete s i) = None
  /\ (forall net, complete (toggleComplete s i) net = s).
Proof.
  intros H. split; [|split].
  - simpl. apply map_unknown_id. exact H.
  - intros net. simpl.
    destruct (net _) as [updated|message]; simpl.
    + split; [|reflexivity].
      rewrite (map_unknown_id _ _ _ H). apply map_unknown_id. exact H.
    + split; reflexivity.
  - unfold toggleComplete. rewrite (find_unknown_id _ _ H).
    split; [reflexivity|]. intros net. reflexivity.
Qed.

Lemma unknown_id_keeps_list_witness :
  todos (complete (updateTodo Sample.showing 7 Sample.done) Sample.offline)
  = todos Sample.showing
  /\ complete (toggleComplete Sample.showing 7) Sample.offline
     = Sample.showing.
Proof.
  destruct (unknown_id_keeps_list Sample.showing 7 Sample.done)
    as (_ & H1 & _ & H2).
  - intros t Ht. vm_compute in Ht.
    apply list_elem_of_singleton in Ht. rewrite Ht. simpl. lia.
  - split; [apply H1|apply H2].
Defined.

(** C7 as stated fails: with an empty list and no error, [updateTodo] for
    an id that no task has still sends PUT /todos/7, without a body, and
    when that request fails the state is not the one it started from. *)
Lemma updateTodo_unknown_id_calls_store :
  (forall t, t ∈ todos Sample.idle -> Api.id t <> 7)
  /\ issued (updateTodo Sample.idle 7 Sample.done) = Some (PutTodo 7 None)
  /\ complete (updateTodo Sample.idle 7 Sample.done) Sample.offline
     <> Sample.idle.
Proof.
  split; [|split].
  - intros t Ht. apply elem_of_nil in Ht. destruct Ht.
  - reflexivity.
  - vm_compute. discriminate.
Qed.

(** C8, as the code has it.  [fetchTodos], [updateTodo], [deleteTodo], and
    [toggleComplete] for an id the list has, clear [error] before their
    request and end with an error exactly when that request failed;
    [toggleComplete] for an id the list does not have returns at once and
    changes nothing, [error] included; [addTodo] ends with an error when its
    request failed and sets none otherwise. *)
Theorem error_cleared_and_set_on_failure s i updates title :
  error_policy (fetchTodos s)
  /\ error_policy (updateTodo s i updates)
  /\ error_policy (deleteTodo s i)
  /\ (is_Some (find (fun t => Api.id t =? i) (todos s)) ->
      error_policy (toggleComplete s i))
  /\ (find (fun t => Api.id t =? i) (todos s) = None ->
      toggleComplete s i = Return s)
  /\ (forall net,
       (fails (addTodo s title) net ->
        error (complete (addTodo s title) net) <> ""%string)
       /\ (~ fails (addTodo s title) net ->
           error (complete (addTodo s title) net) = error s
           \/ error (complete (addTodo s title) net) = ""%string)).
Proof.
  assert (forall j u, error_policy (updateTodo s j u)) as Hupd.
  { intros j u. split; [reflexivity|]. intros net. simpl.
    destruct (net _) as [updated|message]; simpl; split.
    - intros [m Hm]. discriminate.
    - reflexivity.
    - intros _. apply or_else_nonempty. discriminate.
    - intros Hn. exfalso. apply Hn. eauto. }
  split; [|split; [apply Hupd|split; [|split; [|split]]]].
  - split; [reflexivity|]. intros net. simpl.
    destruct (net _) as [data|message]; simpl; split.
    + intros [m Hm]. discriminate.
    + reflexivity.
    + intros _. apply or_else_nonempty. discriminate.
    + intros Hn. exfalso. apply Hn. eauto.
  - split; [reflexivity|]. intros net. simpl.
    destruct (net _) as [data|message]; simpl; split.
    + intros [m Hm]. discriminate.
    + reflexivity.
    + intros _. apply or_else_nonempty. discriminate.
    + intros Hn. exfalso. apply Hn. eauto.
  - intros [target Ht]. unfold toggleComplete. rewrite Ht. apply Hupd.
  - intros Hf. unfold toggleComplete. rewrite Hf. reflexivity.
  - intros net. unfold addTodo. simpl.
    destruct (Js.trim title) as [|c r]; [split; [intros []|auto]|]. simpl.
    destruct (net _) as [created|message]; simpl; split.
    + intros [m Hm]. discriminate.
    + auto.
    + intros _. apply or_else_nonempty. discriminate.
    + intros Hn. exfalso. apply Hn. eauto.
Qed.

Lemma error_cleared_and_set_on_failure_witness :
  error_policy (toggleComplete Sample.showing 1)
  /\ toggleComplete Sample.stale 7 = Return Sample.stale
  /\ error (complete (addTodo Sample.stale (Js.lit "Buy milk"))
              Sample.offline)
     <> ""%string.
Proof.
  destruct (error_cleared_and_set_on_failure Sample.showing 1 Sample.done [])
    as (_ & _ & _ & H & _).
  destruct (error_cleared_and_set_on_failure Sample.stale 7 Sample.done
              (Js.lit "Buy milk"))
    as (_ & _ & _ & _ & Hnone & H').
  split; [|split].
  - apply H. vm_compute. eauto.
  - apply Hnone. reflexivity.
  - apply (H' Sample.offline). vm_compute. eauto.
Defined.

(** C8 as stated fails: [toggleComplete] for an id the list does not have
    returns before any [setError]: the error of an earlier failure is still
    there at its start and at its end. *)
Lemma toggleComplete_unknown_id_keeps_error :
  (forall t, t ∈ todos Sample.stale -> Api.id t <> 7)
  /\ issued (toggleComplete Sample.stale 7) = None
  /\ error (at_await (toggleComplete Sample.stale 7))
     = "Failed to load todos"%string
  /\ (forall net,
       error (complete (toggleComplete Sample.stale 7) net)
       = "Failed to load todos"%string).
Proof.
  split; [|split; [|split]].
  - intros t Ht. apply elem_of_nil in Ht. destruct Ht.
  - reflexivity.
  - reflexivity.
  - intros net. reflexivity.
Qed.

Lemma find_map_spread (i : Z) updates (l : list Api.Todo) :
  find (fun t => Api.id t =? i)
    (map (fun t => if Api.id t =? i then spread t updates else t) l)
  = (fun t => spread t updates) <$> find (fun t => Api.id t =? i) l.
Proof.
  induction l as [|t l IH]; [reflexivity|]. simpl.
  destruct (Api.id t =? i) eqn:E; simpl; rewrite E; [reflexivity|exact IH].
Qed.

(** Unlike [fetchTodos], [updateTodo] and [deleteTodo], [addTodo] has no
    [setError("")] before its request: the error of an earlier failure is
    still shown while the request is out. *)
Example addTodo_has_no_setError :
  error (at_await (addTodo Sample.stale (Js.lit "Buy milk")))
  = "Failed to load todos"%string.
Proof. reflexivity. Qed.

(** C9.  [updateTodo] and [deleteTodo] change the list at once and send
    their request, and so does [toggleComplete] for a task of the list; when
    that request fails, they leave the list they started from, with
    [loading] as it was and the message of the failure, or their own, as
    [error], which is then not empty; the list is put back whatever the
    state has become while the request was out. *)
Theorem rollback_on_failure s i updates :
  let next :=
    map (fun t => if Api.id t =? i then spread t updates else t) (todos s) in
  let put := PutTodo i (find (fun t => Api.id t =? i) next) in
  (issued (updateTodo s i updates) = Some put
   /\ todos (at_await (updateTodo s i updates)) = next
   /\ (forall net message,
        net put = Threw message ->
        complete (updateTodo s i updates) net
        = {| todos := todos s; loading := loading s;
             error := Js.or_else message "Failed to update todo" |}
        /\ error (complete (updateTodo s i updates) net) <> ""%string)
   /\ (forall message curr,
        todos (rejected (updateTodo s i updates) message curr) = todos s
        /\ error (rejected (updateTodo s i updates) message curr)
           <> ""%string))
  /\ (issued (deleteTodo s i) = Some (DeleteTodo i)
      /\ todos (at_await (deleteTodo s i))
         = filter (fun t => Api.id t <> i) (todos s)
      /\ (forall net message,
           net (DeleteTodo i) = Threw message ->
           complete (deleteTodo s i) net
           = {| todos := todos s; loading := loading s;
                error := Js.or_else message "Failed to delete todo" |}
           /\ error (complete (deleteTodo s i) net) <> ""%string)
      /\ (forall message curr,
           todos (rejected (deleteTodo s i) message curr) = todos s
           /\ error (rejected (deleteTodo s i) message curr) <> ""%string))
  /\ (forall target,
        find (fun t => Api.id t =? i) (todos s) = Some target ->
        let flip :=
          {| Api.upd_title := None;
             Api.upd_completed := Some (negb (Api.completed target)) |} in
        issued (toggleComplete s i)
        = Some (PutTodo i (Some (spread target flip)))
        /\ todos (at_await (toggleComplete s i))
           = map (fun t => if Api.id t =? i then spread t flip else t)
               (todos s)
        /\ (forall net message,
             net (PutTodo i (Some (spread target flip))) = Threw message ->
             complete (toggleComplete s i) net
             = {| todos := todos s; loading := loading s;
                  error := Js.or_else message "Failed to update todo" |}
             /\ error (complete (toggleComplete s i) net) <> ""%string)
        /\ (forall message curr,
             todos (rejected (toggleComplete s i) message curr) = todos s
             /\ error (rejected (toggleComplete s i) message curr)
                <> ""%string)).
Proof.
  assert (forall j u,
            let next :=
              map (fun t => if Api.id t =? j then spread t u else t)
                (todos s) in
            forall net message,
              net (PutTodo j (find (fun t => Api.id t =? j) next))
              = Threw message ->
              complete (updateTodo s j u) net
              = {| todos := todos s; loading := loading s;
                   error := Js.or_else message "Failed to update todo" |}
              /\ error (complete (updateTodo s j u) net) <> ""%string)
    as Hupd.
  { intros j u next net message Hnet. unfold complete, updateTodo.
    fold next. rewrite Hnet. split; [reflexivity|].
    apply or_else_nonempty. discriminate. }
  cbv zeta. split; [|split].
  - split; [reflexivity|]. split; [reflexivity|]. split; [apply Hupd|].
    intros message curr. split; [reflexivity|].
    apply or_else_nonempty. discriminate.
  - split; [reflexivity|]. split; [reflexivity|]. split.
    + intros net message Hnet. unfold complete, deleteTodo.
      rewrite Hnet. split; [reflexivity|].
      apply or_else_nonempty. discriminate.
    + intros message curr. split; [reflexivity|].
      apply or_else_nonempty. discriminate.
  - intros target Hf. unfold toggleComplete. rewrite Hf.
    assert (find (fun t => Api.id t =? i)
              (map (fun t =>
                      if Api.id t =? i
                      then spread t
                             {| Api.upd_title := None;
                                Api.upd_completed :=
                                  Some (negb (Api.completed target)) |}
                      else t) (todos s))
            = Some (spread target
                      {| Api.upd_title := None;
                         Api.upd_completed :=
                           Some (negb (Api.completed target)) |})) as Hbody
      by (rewrite find_map_spread, Hf; reflexivity).
    split; [unfold updateTodo, issued; rewrite Hbody; reflexivity|].
    split; [reflexivity|]. split.
    + intros net message Hnet. apply Hupd. cbv zeta. rewrite Hbody.
      exact Hnet.
    + intros message curr. split; [reflexivity|].
      apply or_else_nonempty. discriminate.
Qed.

Lemma rollback_on_failure_witness :
  issued (toggleComplete Sample.showing 1) <> None
  /\ complete (toggleComplete Sample.showing 1) Sample.offline
     = {| todos := todos Sample.showing; loading := false;
          error := "Failed to fetch" |}
  /\ issued (deleteTodo Sample.showing 1) = Some (DeleteTodo 1)
  /\ todos (at_await (deleteTodo Sample.showing 1)) = []
  /\ complete (deleteTodo Sample.showing 1) Sample.offline
     = {| todos := todos Sample.showing; loading := false;
          error := "Failed to fetch" |}.
Proof.
  destruct (rollback_on_failure Sample.showing 1 Sample.done)
    as (_ & (Hd1 & Hd2 & Hd3 & _) & Ht).
  destruct (Ht Sample.milk) as (Ht1 & _ & Ht3 & _); [reflexivity|].
  split; [rewrite Ht1; discriminate|].
  split; [apply (Ht3 Sample.offline "Failed to fetch"%string); reflexivity|].
  split; [exact Hd1|]. split; [rewrite Hd2; reflexivity|].
  apply (Hd3 Sample.offline "Failed to fetch"%string). reflexivity.
Defined.

Lemma length_filter_split (l : list Api.Todo) :
  (length (filter (fun t => Api.completed t = true) l)
   + length (filter (fun t => Api.completed t = false) l))%nat
  = length l.
Proof.
  induction l as [|t l IH]; [reflexivity|].
  rewrite !filter_cons. destruct (Api.completed t) eqn:E.
  - rewrite decide_True by reflexivity.
    rewrite decide_False by discriminate. simpl. lia.
  - rewrite decide_False by discriminate.
    rewrite decide_True by reflexivity. simpl. lia.
Qed.

(** C10.  In [stats], [total] is the length of the list, [completed] counts
    the tasks that are completed, [active] counts the others, and
    [total = completed + active]. *)
Theorem stats_add_up s :
  total (stats s) = stats_completed (stats s) + active (stats s)
  /\ total (stats s) = Z.of_nat (length (todos s))
  /\ stats_completed (stats s) =
       Z.of_nat (length (filter (fun t => Api.completed t = true) (todos s)))
  /\ active (stats s) =
       Z.of_nat (length (filter (fun t => Api.completed t = false) (todos s))).
Proof.
  pose proof (length_filter_split (todos s)) as H.
  unfold stats. simpl. repeat split; lia.
Qed.

End HookFacts.

(** ** More on the task table *)

Section TableMore.

Implicit Types (db : Db.Database) (i j : Z) (r : Db.Row) (now : string)
  (op : Trace.Op).

Lemma max_rowid_nonneg (t : gmap Z Db.Row) : 0 <= Db.max_rowid t.
Proof. apply foldr_max_nonneg. Qed.

(** [createTask] gives the new task an id that is positive and larger than
    the counter and than every id in the table; the task has the trimmed
    title as the TEXT column holds it (the trimmed title itself when it is
    well formed), the given flag ([false] when absent), the instant of the call as
    [createdAt] and no [updatedAt]; no other row is touched. *)
Theorem createTask_next_id db title completed now :
  exists t,
    (Db.createTask db title completed now).2 = Some t
    /\ 0 < Api.id t
    /\ Db.sqlite_sequence db < Api.id t
    /\ (forall j, is_Some (Db.tasks db !! j) -> j < Api.id t)
    /\ Db.sqlite_sequence (Db.createTask db title completed now).1 = Api.id t
    /\ Api.title t = Js.toWellFormed (Js.trim (Js.String_or_empty title))
    /\ (Js.isWellFormed (Js.String_or_empty title) ->
        Api.title t = Js.trim (Js.String_or_empty title))
    /\ Api.completed t = default false completed
    /\ Api.createdAt t = now
    /\ Api.updatedAt t = None
    /\ Db.getTaskById (Db.createTask db title completed now).1 (Api.id t)
       = Some t
    /\ (forall j, j <> Api.id t ->
         Db.tasks (Db.createTask db title completed now).1 !! j
         = Db.tasks db !! j).
Proof.
  rewrite createTask_spec. cbn zeta. eexists. split; [reflexivity|].
  pose proof (max_rowid_nonneg (Db.tasks db)) as H0.
  cbn [Api.id Api.title Api.completed Api.createdAt Api.updatedAt
       Db.todo_of_row fst snd Db.title Db.completed Db.created_at
       Db.updated_at Db.sqlite_sequence Db.tasks].
  unfold Db.next_rowid.
  split; [lia|]. split; [lia|]. split.
  { intros j Hj. apply max_rowid_ub in Hj. lia. }
  split; [reflexivity|]. split; [reflexivity|].
  split; [apply text_trim_well_formed|].
  split; [destruct (default false completed); reflexivity|].
  split; [reflexivity|]. split; [reflexivity|]. split.
  - unfold Db.getTaskById, Db.select_by_id. simpl.
    rewrite lookup_insert_eq. reflexivity.
  - intros j Hj. rewrite lookup_insert_ne by congruence. reflexivity.
Qed.

Lemma createTask_next_id_witness :
  exists t,
    (Db.createTask Sample.one_task None None Sample.tuesday).2 = Some t
    /\ 1 < Api.id t.
Proof.
  destruct (createTask_next_id Sample.one_task None None Sample.tuesday)
    as (t & Ht & _ & _ & Hlt & _).
  exists t. split; [exact Ht|]. apply Hlt. vm_compute. eauto.
Defined.

Lemma step_sequence_mono db op :
  Db.sqlite_sequence db <= Db.sqlite_sequence (Trace.step db op).
Proof.
  destruct op as [title completed now|k updates now|k|]; cbn [Trace.step].
  - rewrite createTask_spec. simpl. unfold Db.next_rowid. lia.
  - rewrite updateTask_sequence. lia.
  - simpl. lia.
  - lia.
Qed.

Lemma run_sequence_mono ops :
  forall db, Db.sqlite_sequence db <= Db.sqlite_sequence (Trace.run db ops).
Proof.
  unfold Trace.run. induction ops as [|op ops IH]; intros db; simpl; [lia|].
  pose proof (step_sequence_mono db op). pose proof (IH (Trace.step db op)).
  lia.
Qed.

(** Ids grow with time: a task created after another one, whatever calls
    were made in between, has a strictly larger id. *)
Theorem created_ids_increase db title completed now ops title' completed' now' :
  exists t t',
    (Db.createTask db title completed now).2 = Some t
    /\ (Db.createTask
          (Trace.run (Db.createTask db title completed now).1 ops)
          title' completed' now').2 = Some t'
    /\ Api.id t < Api.id t'.
Proof.
  pose proof (run_sequence_mono ops (Db.createTask db title completed now).1)
    as Hmono.
  rewrite (createTask_spec _ title' completed' now').
  rewrite createTask_spec in *. cbn zeta in *.
  eexists _, _. split; [reflexivity|]. split; [reflexivity|].
  simpl in *.
  match goal with
  | |- _ < Db.next_rowid ?d =>
      assert (Db.sqlite_sequence d < Db.next_rowid d)
        by (unfold Db.next_rowid; lia)
  end.
  lia.
Qed.

Lemma foldl_assign_created_at fields :
  forall r, Db.created_at (foldl Db.assign r fields) = Db.created_at r.
Proof.
  induction fields as [|a fields IH]; intros r; simpl; [reflexivity|].
  rewrite IH. destruct a; reflexivity.
Qed.

(** What [updateTask] does to the table, as lookups. *)
Lemma updateTask_lookup db i updates now j :
  Db.tasks (Db.updateTask db i updates now).1 !! j =
    if decide (j = i)
    then match Api.upd_title updates, Api.upd_completed updates with
         | None, None => Db.tasks db !! i
         | _, _ => (fun r => Rows.updated r updates now) <$> Db.tasks db !! i
         end
    else Db.tasks db !! j.
Proof.
  unfold Db.updateTask, Db.run_update.
  destruct updates as [[t|] [c|]]; simpl;
    (destruct (decide (j = i)) as [->|Hne];
     [|try destruct (Db.tasks db !! i); simpl;
       try rewrite lookup_alter_ne by congruence; reflexivity]).
  - destruct (Db.tasks db !! i) eqn:H; simpl;
      rewrite lookup_alter_eq, H; reflexivity.
  - destruct (Db.tasks db !! i) eqn:H; simpl;
      rewrite lookup_alter_eq, H; reflexivity.
  - destruct (Db.tasks db !! i) eqn:H; simpl;
      rewrite lookup_alter_eq, H; reflexivity.
  - reflexivity.
Qed.

Lemma updateTask_result db i r updates now :
  Db.tasks db !! i = Some r ->
  is_Some (Api.upd_title updates) \/ is_Some (Api.upd_completed updates) ->
  (Db.updateTask db i updates now).2
  = Some (Db.todo_of_row (i, Rows.updated r updates now)).
Proof.
  intros Hr Hsome.
  unfold Db.updateTask, Db.run_update, Db.select_by_id. rewrite Hr.
  destruct updates as [[t|] [c|]]; simpl in *;
    try (rewrite lookup_alter_eq, Hr; reflexivity).
  destruct Hsome as [[x Hx]|[x Hx]]; discriminate.
Qed.

Lemma updateTask_found db (k : Z) r updates now :
  Db.tasks db !! k = Some r ->
  exists t, (Db.updateTask db k updates now).2 = Some t /\ Api.id t = k.
Proof.
  intros Hr. destruct updates as [[x|] [c|]].
  4: { exists (Db.todo_of_row (k, r)). split; [|reflexivity].
       change (Db.getTaskById db k = Some (Db.todo_of_row (k, r))).
       apply getTaskById_Some, Hr. }
  all: eexists; split;
    [apply (updateTask_result db k r _ now Hr);
     simpl; first [left; eexists; reflexivity|right; eexists; reflexivity]
    |reflexivity].
Qed.

(** [updateTask] with at least one field, on an existing task: the row gets
    the trimmed title as the TEXT column holds it (unpaired surrogates
    replaced by U+FFFD, so the trimmed title itself when it is well formed)
    and the 0/1 flag, for the fields supplied, and the
    instant of the call as [updated_at]; it keeps the others and its
    creation date; the returned task is the view of that row; no other row
    is touched. *)
Theorem updateTask_applies_fields db i r updates now :
  Db.tasks db !! i = Some r ->
  is_Some (Api.upd_title updates) \/ is_Some (Api.upd_completed updates) ->
  (Db.updateTask db i updates now).2
  = Some (Db.todo_of_row (i, Rows.updated r updates now))
  /\ Db.tasks (Db.updateTask db i updates now).1 !! i
     = Some (Rows.updated r updates now)
  /\ (forall j, j <> i ->
       Db.tasks (Db.updateTask db i updates now).1 !! j = Db.tasks db !! j)
  /\ (forall t,
       Api.upd_title updates = Some t ->
       Db.title (Rows.updated r updates now) = Js.toWellFormed (Js.trim t)
       /\ (Js.isWellFormed t ->
           Db.title (Rows.updated r updates now) = Js.trim t))
  /\ (Api.upd_title updates = None ->
      Db.title (Rows.updated r updates now) = Db.title r).
Proof.
  intros Hr Hsome. split; [|split; [|split; [|split]]].
  - apply updateTask_result; assumption.
  - rewrite updateTask_lookup, decide_True, Hr by reflexivity.
    destruct updates as [[t|] [c|]]; simpl in *; try reflexivity.
    destruct Hsome as [[x Hx]|[x Hx]]; discriminate.
  - intros j Hj. rewrite updateTask_lookup, decide_False by exact Hj.
    reflexivity.
  - intros t Ht. unfold Rows.updated. rewrite Ht. simpl.
    split; [reflexivity|apply text_trim_well_formed].
  - intros Ht. unfold Rows.updated. rewrite Ht. reflexivity.
Qed.

Lemma updateTask_applies_fields_witness :
  Api.title <$>
    (Db.updateTask Sample.one_task 1
       {| Api.upd_title := Some (Js.lit " Buy oat milk ");
          Api.upd_completed := None |} Sample.tuesday).2
  = Some (Js.lit "Buy oat milk").
Proof.
  destruct (updateTask_applies_fields Sample.one_task 1
              {| Db.title := Js.lit "Buy milk"; Db.completed := 0;
                 Db.created_at := Sample.monday; Db.updated_at := None |}
              {| Api.upd_title := Some (Js.lit " Buy oat milk ");
                 Api.upd_completed := None |} Sample.tuesday)
    as [H _].
  - vm_compute. reflexivity.
  - left. simpl. eauto.
  - rewrite H. reflexivity.
Defined.

Lemma updateTask_created_at db i updates now j :
  Db.created_at <$> Db.tasks (Db.updateTask db i updates now).1 !! j
  = Db.created_at <$> Db.tasks db !! j.
Proof.
  rewrite updateTask_lookup.
  destruct (decide (j = i)) as [->|]; [|reflexivity].
  destruct updates as [[t|] [c|]]; simpl;
    destruct (Db.tasks db !! i); reflexivity.
Qed.

(** [updateTask], whatever it is given, adds no row and removes none, leaves
    the id counter alone and never changes a creation date. *)
Theorem updateTask_keeps_ids_and_dates db i updates now :
  Db.sqlite_sequence (Db.updateTask db i updates now).1
  = Db.sqlite_sequence db
  /\ forall j,
      (is_Some (Db.tasks (Db.updateTask db i updates now).1 !! j)
       <-> is_Some (Db.tasks db !! j))
      /\ Db.created_at <$> Db.tasks (Db.updateTask db i updates now).1 !! j
         = Db.created_at <$> Db.tasks db !! j.
Proof.
  split; [apply updateTask_sequence|].
  split; [apply updateTask_keys|apply updateTask_created_at].
Qed.

End TableMore.

(** ** What every history keeps *)

Section Histories.

Implicit Types (db : Db.Database) (i j : Z) (r : Db.Row) (now : string)
  (op : Trace.Op).

Lemma rows_ok_step db op : Rows.rows_ok db -> Rows.rows_ok (Trace.step db op).
Proof.
  intros Hok.
  destruct op as [title completed now|k updates now|k|]; cbn [Trace.step].
  - rewrite createTask_spec. cbn zeta. intros i r. simpl.
    pose proof (max_rowid_nonneg (Db.tasks db)) as H0.
    unfold Db.next_rowid.
    intros H. apply lookup_insert_Some in H as [[<- <-]|[_ H]].
    + split; [|lia]. split; simpl.
      * apply text_trim_trimmed.
      * destruct (default false completed); auto.
    + apply Hok in H as [H1 H2]. split; [exact H1|lia].
  - intros i r. rewrite updateTask_sequence, updateTask_lookup.
    destruct (decide (i = k)) as [->|]; [|apply Hok].
    assert (forall r0, Db.tasks db !! k = Some r0 ->
              Rows.row_ok (Rows.updated r0 updates now)) as Hupd.
    { intros r0 H0. apply Hok in H0 as [[Ht Hc] _].
      split; simpl.
      - destruct (Api.upd_title updates); simpl;
          [apply text_trim_trimmed|exact Ht].
      - destruct (Api.upd_completed updates) as [[|]|]; simpl; auto. }
    destruct updates as [[t|] [c|]]; simpl in *;
      try (destruct (Db.tasks db !! k) as [r0|] eqn:E; simpl;
           [|discriminate]; intros [= <-];
           split; [apply (Hupd r0); reflexivity|
                   apply (Hok _ _ E)]).
  - intros i r. simpl. intros H.
    apply lookup_delete_Some in H as [_ H]. apply Hok. exact H.
  - exact Hok.
Qed.

(** Whatever calls are made on a table that started empty, every row has a
    trimmed title, a 0/1 [completed] and an id between 1 and the counter. *)
Theorem rows_ok_always ops i r :
  Db.tasks (Trace.run Db.initDatabase ops) !! i = Some r ->
  Js.trim (Db.title r) = Db.title r
  /\ (Db.completed r = 0 \/ Db.completed r = 1)
  /\ 1 <= i <= Db.sqlite_sequence (Trace.run Db.initDatabase ops).
Proof.
  assert (forall db, Rows.rows_ok db -> Rows.rows_ok (Trace.run db ops)) as H.
  { unfold Trace.run. induction ops as [|op ops IH]; intros db Hdb; simpl;
      [exact Hdb|]. apply IH, rows_ok_step, Hdb. }
  intros Hr. apply H in Hr as [[H1 H2] H3]; [auto|].
  intros j r0 Hj. simpl in Hj. rewrite lookup_empty in Hj. discriminate.
Qed.

Lemma rows_ok_always_witness :
  Db.title <$>
    Db.tasks
      (Trace.run Db.initDatabase
         [Trace.Create (Some (Js.lit "  Buy milk ")) None Sample.monday;
          Trace.Update 1 Sample.done Sample.tuesday]) !! 1
  = Some (Js.lit "Buy milk")
  /\ Js.trim (Js.lit "Buy milk") = Js.lit "Buy milk".
Proof.
  split; [vm_compute; reflexivity|].
  apply (rows_ok_always
           [Trace.Create (Some (Js.lit "  Buy milk ")) None Sample.monday;
            Trace.Update 1 Sample.done Sample.tuesday] 1
           {| Db.title := Js.lit "Buy milk"; Db.completed := 1;
              Db.created_at := Sample.monday;
              Db.updated_at := Some Sample.tuesday |}).
  vm_compute. reflexivity.
Defined.

(** The row under [i], if any, was created at [c]; and [i] is not above the
    counter, so no insert will pick it. *)
Lemma dated_step i (c : string) db op :
  Trace.autoincrement_ok db ->
  i <= Db.sqlite_sequence db ->
  (forall r, Db.tasks db !! i = Some r -> Db.created_at r = c) ->
  forall r, Db.tasks (Trace.step db op) !! i = Some r -> Db.created_at r = c.
Proof.
  intros Hok Hi Hc r.
  destruct op as [title completed now|k updates now|k|]; cbn [Trace.step].
  - rewrite createTask_spec. simpl. unfold Db.next_rowid.
    rewrite lookup_insert_ne by lia. apply Hc.
  - intros H. assert (Db.created_at <$>
                        Db.tasks (Db.updateTask db k updates now).1 !! i
                      = Some (Db.created_at r)) as H' by (rewrite H; reflexivity).
    rewrite updateTask_created_at in H'.
    destruct (Db.tasks db !! i) as [r0|] eqn:E; [|discriminate].
    injection H' as <-. apply Hc. reflexivity.
  - simpl. intros H. apply lookup_delete_Some in H as [_ H]. apply Hc, H.
  - apply Hc.
Qed.

Lemma autoincrement_ok_step db op :
  Trace.autoincrement_ok db -> Trace.autoincrement_ok (Trace.step db op).
Proof.
  intros Hok. unfold Trace.autoincrement_ok in *.
  pose proof (max_rowid_nonneg (Db.tasks db)) as H0.
  pose proof (step_sequence_mono db op) as Hmono.
  apply max_rowid_least; [lia|]. intros j Hj.
  destruct op as [title completed now|k updates now|k|]; cbn [Trace.step] in *.
  - rewrite createTask_spec in *. simpl in *.
    apply lookup_insert_is_Some in Hj as [<-|[_ Hj]]; [lia|].
    apply max_rowid_ub in Hj. lia.
  - apply updateTask_keys, max_rowid_ub in Hj. lia.
  - simpl in Hj. apply lookup_delete_is_Some in Hj as [_ Hj].
    apply max_rowid_ub in Hj. simpl. lia.
  - apply max_rowid_ub in Hj. lia.
Qed.

(** A task keeps its creation date for as long as it exists: whatever calls
    are made, a row found under the id of an existing task has the creation
    date that task had. *)
Theorem created_at_is_for_life db ops i r r' :
  Trace.autoincrement_ok db ->
  Db.tasks db !! i = Some r ->
  Db.tasks (Trace.run db ops) !! i = Some r' ->
  Db.created_at r' = Db.created_at r.
Proof.
  intros Hok Hr.
  assert (i <= Db.sqlite_sequence db) as Hi.
  { unfold Trace.autoincrement_ok in Hok.
    assert (i <= Db.max_rowid (Db.tasks db)) by (apply max_rowid_ub; eauto).
    lia. }
  assert (forall r0, Db.tasks db !! i = Some r0 ->
                     Db.created_at r0 = Db.created_at r) as Hc
    by (intros r0 H0; congruence).
  clear Hr. revert db Hok Hi Hc r'. unfold Trace.run.
  induction ops as [|op ops IH]; intros db Hok Hi Hc r'; simpl.
  - apply Hc.
  - apply IH.
    + apply autoincrement_ok_step, Hok.
    + pose proof (step_sequence_mono db op). lia.
    + apply dated_step; assumption.
Qed.

Lemma created_at_is_for_life_witness :
  Db.created_at
    {| Db.title := Js.lit "Buy milk"; Db.completed := 1;
       Db.created_at := Sample.monday;
       Db.updated_at := Some Sample.tuesday |}
  = Db.created_at
      {| Db.title := Js.lit "Buy milk"; Db.completed := 0;
         Db.created_at := Sample.monday; Db.updated_at := None |}.
Proof.
  apply (created_at_is_for_life Sample.one_task
           [Trace.Update 1 Sample.done Sample.tuesday;
            Trace.Create None None Sample.tuesday] 1).
  - vm_compute. discriminate.
  - vm_compute. reflexivity.
  - vm_compute. reflexivity.
Defined.

(** Deleting what is not there. *)
Lemma deleteTask_absent db i :
  Db.tasks db !! i = None -> Db.deleteTask db i = (db, false).
Proof.
  intros H. unfold Db.deleteTask. rewrite H, delete_id by exact H.
  destruct db; reflexivity.
Qed.

(** [deleteTask] resolves to [false] exactly when the table has no row with
    the id, and then it leaves the database as it was. *)
Theorem deleteTask_missing db i :
  ((Db.deleteTask db i).2 = false <-> Db.tasks db !! i = None)
  /\ (Db.tasks db !! i = None -> Db.deleteTask db i = (db, false)).
Proof.
  split; [|apply deleteTask_absent].
  split.
  - simpl. destruct (Db.tasks db !! i); [discriminate|reflexivity].
  - intros H. rewrite (deleteTask_absent _ _ H). reflexivity.
Qed.

Lemma deleteTask_missing_witness :
  Db.deleteTask Sample.one_task 2 = (Sample.one_task, false).
Proof.
  apply (deleteTask_missing Sample.one_task 2). vm_compute. reflexivity.
Defined.

End Histories.

(** ** How the list follows the table *)

Section ListFollows.

Implicit Types (db : Db.Database) (i j : Z) (r : Db.Row) (now : string)
  (l : list (Z * Db.Row)).

Lemma select_all_sorted db : StronglySorted Db.order_by (Db.select_all db).
Proof.
  apply StronglySorted_merge_sort; [apply order_by_trans|apply order_by_total].
Qed.

(** The query has one answer: a sorted list of the rows of the table is the
    list [select_all] gives. *)
Lemma select_all_unique db l :
  StronglySorted Db.order_by l ->
  l ≡ₚ map_to_list (Db.tasks db) ->
  l = Db.select_all db.
Proof.
  intros Hsorted Hperm.
  apply (StronglySorted_unique_strong Db.order_by);
    [|exact Hsorted|apply select_all_sorted
     |rewrite Hperm; symmetry; apply select_all_perm].
  intros [k1 r1] [k2 r2] H1 H2. rewrite Hperm in H1.
  rewrite (select_all_perm db) in H2.
  apply elem_of_map_to_list in H1, H2.
  unfold Db.order_by. simpl.
  rewrite (String.compare_antisym (Db.created_at r1) (Db.created_at r2)).
  destruct (String.compare (Db.created_at r2) (Db.created_at r1)); simpl;
    [|intros _ []|intros []].
  intros Ha Hb. assert (k1 = k2) as -> by lia. congruence.
Qed.

Lemma getAllTasks_length db :
  length (Db.getAllTasks db) = size (Db.tasks db).
Proof.
  unfold Db.getAllTasks. rewrite length_fmap, (select_all_perm db).
  apply length_map_to_list.
Qed.

(** The list has one task per row, under distinct ids. *)
Theorem getAllTasks_one_per_row db :
  length (Db.getAllTasks db) = size (Db.tasks db)
  /\ NoDup (Api.id <$> Db.getAllTasks db).
Proof.
  split.
  - apply getAllTasks_length.
  - unfold Db.getAllTasks. rewrite <- list_fmap_compose.
    change (Api.id ∘ Db.todo_of_row) with (@fst Z Db.Row).
    rewrite (select_all_perm db). apply NoDup_fst_map_to_list.
Qed.

(** The list after an insert that is not older than the rows. *)
Lemma getAllTasks_created db title completed now :
  (forall j r, Db.tasks db !! j = Some r ->
               String.compare (Db.created_at r) now <> Gt) ->
  exists t,
    (Db.createTask db title completed now).2 = Some t
    /\ Db.getAllTasks (Db.createTask db title completed now).1
       = t :: Db.getAllTasks db.
Proof.
  intros Hclock. rewrite createTask_spec. cbn zeta.
  eexists. split; [reflexivity|]. unfold Db.getAllTasks.
  rewrite <- fmap_cons. f_equal. symmetry. apply select_all_unique.
  - constructor; [apply select_all_sorted|].
    apply Forall_forall. intros [k r0] Hk.
    rewrite (select_all_perm db) in Hk. apply elem_of_map_to_list in Hk.
    unfold Db.order_by. simpl. rewrite String.compare_antisym.
    pose proof (Hclock _ _ Hk) as Hle.
    destruct (String.compare (Db.created_at r0) now); simpl;
      [|exact I|congruence].
    assert (k <= Db.max_rowid (Db.tasks db)) by (apply max_rowid_ub; eauto).
    unfold Db.next_rowid. lia.
  - simpl. rewrite map_to_list_insert by apply next_rowid_fresh.
    constructor. apply select_all_perm.
Qed.

(** A task created no earlier than every task of the table is listed first,
    before the list as it was, and its id is above every id of that list. *)
Theorem createTask_listed_first db title completed now :
  (forall j r, Db.tasks db !! j = Some r ->
               String.compare (Db.created_at r) now <> Gt) ->
  exists t,
    (Db.createTask db title completed now).2 = Some t
    /\ Db.getAllTasks (Db.createTask db title completed now).1
       = t :: Db.getAllTasks db
    /\ forall u, u ∈ Db.getAllTasks db -> Api.id u < Api.id t.
Proof.
  intros Hclock.
  destruct (getAllTasks_created db title completed now Hclock)
    as (t & Ht & Hl).
  exists t. split; [exact Ht|]. split; [exact Hl|].
  rewrite createTask_spec in Ht. injection Ht as <-.
  intros u Hu. apply getAllTasks_elem in Hu as (k & r & Hk & ->). simpl.
  assert (k <= Db.max_rowid (Db.tasks db)) by (apply max_rowid_ub; eauto).
  unfold Db.next_rowid. lia.
Qed.

Lemma createTask_listed_first_witness :
  exists t,
    Db.getAllTasks
      (Db.createTask Sample.one_task (Some (Js.lit "Write report")) None
         Sample.tuesday).1
    = t :: Db.getAllTasks Sample.one_task.
Proof.
  destruct (createTask_listed_first Sample.one_task
              (Some (Js.lit "Write report")) None Sample.tuesday)
    as (t & _ & H & _).
  - intros j r Hj.
    destruct (decide (j = 1)) as [->|Hne].
    + vm_compute in Hj. injection Hj as <-. vm_compute. discriminate.
    + unfold Sample.one_task in Hj. rewrite createTask_spec in Hj.
      simpl in Hj. rewrite lookup_insert_ne in Hj by (vm_compute; congruence).
      rewrite lookup_empty in Hj. discriminate.
  - exists t. exact H.
Defined.

(** A change of the rows that keeps their ids and creation dates keeps their
    order. *)
Lemma select_all_pointwise db db' (g : Z -> Db.Row -> Db.Row) :
  (forall j, Db.tasks db' !! j = g j <$> Db.tasks db !! j) ->
  (forall j r, Db.created_at (g j r) = Db.created_at r) ->
  Db.select_all db' = (fun x => (x.1, g x.1 x.2)) <$> Db.select_all db.
Proof.
  intros Hlook Hdate. symmetry. apply select_all_unique.
  - eapply StronglySorted_fmap; [|apply select_all_sorted].
    intros [k1 r1] [k2 r2]. unfold Db.order_by. simpl.
    rewrite !Hdate. trivial.
  - rewrite (select_all_perm db). apply NoDup_Permutation.
    + apply (NoDup_fmap_1 fst). rewrite <- list_fmap_compose.
      apply NoDup_fst_map_to_list.
    + apply NoDup_map_to_list.
    + intros [k r']. rewrite list_elem_of_fmap, elem_of_map_to_list, Hlook.
      split.
      * intros ([k0 r0] & [= -> ->] & H). apply elem_of_map_to_list in H.
        simpl. rewrite H. reflexivity.
      * intros H. destruct (Db.tasks db !! k) as [r0|] eqn:E; [|discriminate].
        injection H as <-. exists (k, r0). split; [reflexivity|].
        apply elem_of_map_to_list. exact E.
Qed.

Lemma map_fmap {A B} (f : A -> B) (l : list A) : map f l = f <$> l.
Proof. reflexivity. Qed.

(** The list after an update. *)
Lemma getAllTasks_updated db i updates now t :
  (Db.updateTask db i updates now).2 = Some t ->
  Db.getAllTasks (Db.updateTask db i updates now).1
  = map (fun u => if Api.id u =? i then t else u) (Db.getAllTasks db).
Proof.
  intros Ht. rewrite map_fmap.
  destruct (Db.tasks db !! i) as [r|] eqn:Hr;
    [|rewrite updateTask_missing in Ht by exact Hr; discriminate].
  set (g := fun (j : Z) (r0 : Db.Row) =>
              if decide (j = i)
              then match Api.upd_title updates, Api.upd_completed updates with
                   | None, None => r0
                   | _, _ => Rows.updated r0 updates now
                   end
              else r0).
  unfold Db.getAllTasks.
  rewrite (select_all_pointwise db _ g).
  - rewrite <- !list_fmap_compose. apply list_fmap_ext.
    intros n [k r0] Hn. simpl.
    assert (Db.tasks db !! k = Some r0) as Hk.
    { apply elem_of_map_to_list. rewrite <- (select_all_perm db).
      eapply list_elem_of_lookup_2. exact Hn. }
    unfold g. destruct (decide (k = i)) as [->|Hne].
    + rewrite Z.eqb_refl. rewrite Hr in Hk. injection Hk as <-.
      assert ((Api.upd_title updates = None
               /\ Api.upd_completed updates = None)
              \/ (is_Some (Api.upd_title updates)
                  \/ is_Some (Api.upd_completed updates)))
        as [[E1 E2]|Hsome].
      { destruct updates as [[x|] [c|]]; simpl;
          [right; left; eexists; reflexivity
          |right; left; eexists; reflexivity
          |right; right; eexists; reflexivity
          |left; split; reflexivity]. }
      * rewrite E1, E2. destruct updates as [x c]. simpl in E1, E2. subst.
        change (Db.getTaskById db i = Some t) in Ht.
        rewrite (getTaskById_Some _ _ _ Hr) in Ht.
        injection Ht as <-. reflexivity.
      * rewrite (updateTask_result db i r updates now Hr Hsome) in Ht.
        injection Ht as <-.
        destruct Hsome as [[x E]|[x E]]; rewrite E;
          [|destruct (Api.upd_title updates)]; reflexivity.
    + destruct (k =? i) eqn:E; [apply Z.eqb_eq in E; contradiction|].
      reflexivity.
  - intros j. rewrite updateTask_lookup. unfold g.
    destruct (decide (j = i)) as [->|]; [|destruct (Db.tasks db !! j);
                                          reflexivity].
    destruct updates as [[x|] [c|]]; simpl;
      destruct (Db.tasks db !! i); reflexivity.
  - intros j r0. unfold g. destruct (decide (j = i)); [|reflexivity].
    destruct updates as [[x|] [c|]]; reflexivity.
Qed.

(** After [updateTask] has changed a task, the list is the list as it was
    with that task replaced, in the same place, by the one returned: the
    ids are the same, in the same order. *)
Theorem updateTask_list_in_place db i updates now t :
  (Db.updateTask db i updates now).2 = Some t ->
  Db.getAllTasks (Db.updateTask db i updates now).1
  = map (fun u => if Api.id u =? i then t else u) (Db.getAllTasks db)
  /\ Api.id <$> Db.getAllTasks (Db.updateTask db i updates now).1
     = Api.id <$> Db.getAllTasks db.
Proof.
  intros Ht. pose proof (getAllTasks_updated db i updates now t Ht) as Hl.
  split; [exact Hl|]. rewrite Hl.
  assert (Api.id t = i) as Hid.
  { destruct (Db.tasks db !! i) as [r|] eqn:Hr.
    - destruct (updateTask_found db i r updates now Hr) as (t' & Ht' & Hid).
      congruence.
    - rewrite updateTask_missing in Ht by exact Hr. discriminate. }
  generalize (Db.getAllTasks db). intros l.
  induction l as [|u l IH]; [reflexivity|].
  simpl map. rewrite !fmap_cons, IH. f_equal.
  destruct (Api.id u =? i) eqn:E; [|reflexivity].
  apply Z.eqb_eq in E. congruence.
Qed.

Lemma updateTask_list_in_place_witness :
  exists t,
    Db.getAllTasks (Db.updateTask Sample.one_task 1 Sample.done
                      Sample.tuesday).1
    = map (fun u => if Api.id u =? 1 then t else u)
        (Db.getAllTasks Sample.one_task).
Proof.
  eexists. apply updateTask_list_in_place. vm_compute. reflexivity.
Defined.

Lemma StronglySorted_filter_rows (P : Z * Db.Row -> Prop)
    `{forall x, Decision (P x)} l :
  StronglySorted Db.order_by l -> StronglySorted Db.order_by (filter P l).
Proof.
  induction 1 as [|x l Hl IH Hx]; [constructor|].
  rewrite filter_cons. destruct (decide (P x)); [|exact IH].
  constructor; [exact IH|].
  apply Forall_forall. intros y Hy. apply list_elem_of_filter in Hy as [_ Hy].
  eapply Forall_forall in Hx; eassumption.
Qed.

Lemma filter_fmap_todo i l :
  filter (fun t => Api.id t <> i) (Db.todo_of_row <$> l)
  = Db.todo_of_row <$> filter (fun x => x.1 <> i) l.
Proof.
  induction l as [|x l IH]; [reflexivity|].
  rewrite fmap_cons, !filter_cons. simpl.
  destruct (decide (x.1 <> i)); rewrite IH; reflexivity.
Qed.

(** The list after a delete. *)
Lemma getAllTasks_deleted db i :
  Db.getAllTasks (Db.deleteTask db i).1
  = filter (fun t => Api.id t <> i) (Db.getAllTasks db).
Proof.
  unfold Db.getAllTasks. rewrite filter_fmap_todo. f_equal.
  symmetry. apply select_all_unique.
  - apply StronglySorted_filter_rows, select_all_sorted.
  - simpl. apply NoDup_Permutation.
    + apply NoDup_filter. rewrite (select_all_perm db).
      apply NoDup_map_to_list.
    + apply NoDup_map_to_list.
    + intros [k r]. rewrite list_elem_of_filter, (select_all_perm db).
      rewrite !elem_of_map_to_list, lookup_delete_Some. simpl.
      split; intros [H1 H2]; split; auto.
Qed.

(** After [deleteTask], the list is the list as it was without the task of
    that id, the others in the same order: it lost that task and no other,
    and is one shorter exactly when the task was there. *)
Theorem deleteTask_list_filtered db i :
  Db.getAllTasks (Db.deleteTask db i).1
  = filter (fun t => Api.id t <> i) (Db.getAllTasks db)
  /\ (forall t, t ∈ Db.getAllTasks (Db.deleteTask db i).1
                <-> t ∈ Db.getAllTasks db /\ Api.id t <> i)
  /\ length (Db.getAllTasks (Db.deleteTask db i).1)
     = (length (Db.getAllTasks db)
        - if Db.tasks db !! i is Some _ then 1 else 0)%nat.
Proof.
  split; [apply getAllTasks_deleted|]. split.
  - intros t. rewrite getAllTasks_deleted, list_elem_of_filter. tauto.
  - rewrite !getAllTasks_length. simpl.
    destruct (Db.tasks db !! i) as [r|] eqn:Hr.
    + rewrite map_size_delete, Hr. lia.
    + rewrite delete_id by exact Hr. lia.
Qed.

End ListFollows.

(** ** The handlers *)

Section Handlers.

Implicit Types (db : Db.Database) (i : option Z) (k : Z) (now : string).

(** DELETE /todos/:id answers 400 for an id that is not a number above 0,
    404 when no task has the id and 204 when one had; unless it answers 204
    the database is as it was, and after a 204 the task is gone. *)
Theorem delete_todos_answers db i :
  (Server.status (Server.delete_todos db i).2 = 400
   <-> (i = None \/ exists k, i = Some k /\ k <= 0))
  /\ (Server.status (Server.delete_todos db i).2 = 404
      <-> exists k, i = Some k /\ 0 < k /\ Db.tasks db !! k = None)
  /\ (Server.status (Server.delete_todos db i).2 = 204
      <-> exists k, i = Some k /\ 0 < k /\ is_Some (Db.tasks db !! k))
  /\ (Server.status (Server.delete_todos db i).2 <> 204 ->
      (Server.delete_todos db i).1 = db)
  /\ (forall k, i = Some k ->
      Server.status (Server.delete_todos db i).2 = 204 ->
      Db.tasks (Server.delete_todos db i).1 !! k = None).
Proof.
  unfold Server.delete_todos. destruct i as [k|]; simpl.
  2: { repeat split; try discriminate; try tauto; eauto;
       intros (k & H & _); discriminate. }
  destruct (k <=? 0) eqn:Hk; simpl.
  { apply Z.leb_le in Hk. repeat split; try discriminate; eauto.
    - intros (k' & [= <-] & H & _). lia.
    - intros (k' & [= <-] & H & _). lia. }
  apply Z.leb_gt in Hk.
  destruct (Db.tasks db !! k) as [r|] eqn:Hr; simpl.
  - repeat split; try discriminate; try congruence; eauto.
    + intros [H|(k' & [= <-] & H)]; [discriminate|lia].
    + intros (k' & [= <-] & _ & H). congruence.
    + intros k' [= <-] _. apply lookup_delete_eq.
  - rewrite delete_id by exact Hr.
    repeat split; try discriminate; eauto.
    + intros [H|(k' & [= <-] & H)]; [discriminate|lia].
    + intros (k' & [= <-] & _ & [r H]). congruence.
    + destruct db; reflexivity.
Qed.

Lemma delete_todos_answers_witness :
  Server.status (Server.delete_todos Sample.one_task (Some 1)).2 = 204
  /\ (Server.delete_todos Sample.one_task (Some 2)).1 = Sample.one_task.
Proof.
  destruct (delete_todos_answers Sample.one_task (Some 1))
    as (_ & _ & H & _).
  destruct (delete_todos_answers Sample.one_task (Some 2))
    as (_ & _ & _ & H' & _).
  split.
  - apply H. exists 1. split; [reflexivity|]. split; [lia|].
    vm_compute. eauto.
  - apply H'. vm_compute. discriminate.
Defined.

(** PUT /todos/:id answers 400 for an id that is not a number above 0, 404
    when no task has the id, in both cases leaving the database as it was,
    and 200 with a task of that id otherwise. *)
Theorem put_todos_answers db i title completed now :
  (Server.status (Server.put_todos db i title completed now).2 = 400
   <-> (i = None \/ exists k, i = Some k /\ k <= 0))
  /\ (Server.status (Server.put_todos db i title completed now).2 = 404
      <-> exists k, i = Some k /\ 0 < k /\ Db.tasks db !! k = None)
  /\ (Server.status (Server.put_todos db i title completed now).2 = 200
      <-> exists k t,
            i = Some k /\ 0 < k /\ is_Some (Db.tasks db !! k)
            /\ Api.id t = k
            /\ Server.body (Server.put_todos db i title completed now).2
               = Server.JsonTodo (Some t))
  /\ (Server.status (Server.put_todos db i title completed now).2 <> 200 ->
      (Server.put_todos db i title completed now).1 = db).
Proof.
  unfold Server.put_todos. destruct i as [k|]; simpl.
  2: { repeat split; try discriminate; try tauto; eauto.
       - intros (k & H & _); discriminate.
       - intros (k & t & H & _); discriminate. }
  destruct (k <=? 0) eqn:Hk; simpl.
  { apply Z.leb_le in Hk. repeat split; try discriminate; eauto.
    - intros (k' & [= <-] & H & _). lia.
    - intros (k' & t & [= <-] & H & _). lia. }
  apply Z.leb_gt in Hk.
  set (updates := {| Api.upd_title := title; Api.upd_completed := completed |}).
  destruct (Db.tasks db !! k) as [r|] eqn:Hr.
  - destruct (updateTask_found db k r updates now Hr) as (t & Ht & Hid).
    destruct (Db.updateTask db k updates now) as [db' res]. simpl in Ht.
    subst res. simpl.
    repeat split; try discriminate; try congruence; eauto 10.
    + intros [H|(k' & [= <-] & H)]; [discriminate|lia].
    + intros (k' & [= <-] & _ & H). congruence.
  - rewrite updateTask_missing by exact Hr. simpl.
    repeat split; try discriminate; eauto.
    + intros [H|(k' & [= <-] & H)]; [discriminate|lia].
    + intros (k' & t & [= <-] & _ & [r H] & _). congruence.
Qed.

Lemma put_todos_answers_witness :
  Server.status
    (Server.put_todos Sample.one_task (Some 2) None (Some true)
       Sample.tuesday).2 = 404
  /\ (Server.put_todos Sample.one_task None None (Some true)
        Sample.tuesday).1 = Sample.one_task.
Proof.
  destruct (put_todos_answers Sample.one_task (Some 2) None (Some true)
              Sample.tuesday) as (_ & H & _).
  destruct (put_todos_answers Sample.one_task None None (Some true)
              Sample.tuesday) as (_ & _ & _ & H').
  split.
  - apply H. exists 2. split; [reflexivity|]. split; [lia|].
    vm_compute. reflexivity.
  - apply H'. vm_compute. discriminate.
Defined.

(** GET /todos after POST /todos: the task just created is in the list,
    with the trimmed title as the TEXT column holds it (the trimmed title
    itself when the input is well formed), and the list has grown by one. *)
Theorem post_then_get db (title : Js.jsstring) completed now :
  Js.trim title <> [] ->
  exists t,
    Server.body (Server.post_todos db (Some title) completed now).2
    = Server.JsonTodo (Some t)
    /\ Api.title t = Js.toWellFormed (Js.trim title)
    /\ (Js.isWellFormed title -> Api.title t = Js.trim title)
    /\ t ∈ Db.getAllTasks (Server.post_todos db (Some title) completed now).1
    /\ length
         (Db.getAllTasks (Server.post_todos db (Some title) completed now).1)
       = S (length (Db.getAllTasks db)).
Proof.
  intros H. unfold Server.post_todos.
  change (Js.String_or_empty (Some title)) with title. cbv zeta.
  destruct (Js.trim title) as [|c s] eqn:Ht; [congruence|].
  rewrite createTask_spec.
  change (Js.String_or_empty (Some (c :: s))) with (c :: s).
  rewrite <- Ht, trim_idem. cbn zeta. cbn [fst snd Server.body].
  eexists. split; [reflexivity|]. split; [reflexivity|].
  split; [apply text_trim_well_formed|]. split.
  - apply getAllTasks_elem. eexists _, _. split; [|reflexivity].
    simpl. apply lookup_insert_eq.
  - rewrite !getAllTasks_length. simpl.
    apply map_size_insert_None, next_rowid_fresh.
Qed.

Lemma post_then_get_witness :
  exists t,
    Api.title t = Js.lit "Write report"
    /\ t ∈ Db.getAllTasks
            (Server.post_todos Sample.one_task (Some (Js.lit " Write report"))
               None Sample.tuesday).1.
Proof.
  destruct (post_then_get Sample.one_task (Js.lit " Write report") None
              Sample.tuesday) as (t & _ & _ & H1 & H2 & _).
  - vm_compute. discriminate.
  - exists t. split; [rewrite H1; reflexivity|exact H2].
Defined.

End Handlers.

(** ** The client against the server *)

Section Sync.

Import Hook.

Implicit Types (s : State) (db : Db.Database) (i : Z) (now : string)
  (updates : Api.Updates).



Lemma exchange_put db i body now :
  Wire.exchange db (PutTodo i body) now =
    if i <=? 0 then Some (db, Threw "Invalid id")
    else
      let res :=
        Db.updateTask db i
          {| Api.upd_title := Api.title <$> body;
             Api.upd_completed := Api.completed <$> body |} now in
      match res.2 with
      | Some t => Some (res.1, Resolved t)
      | None => Some (res.1, Threw "Todo not found")
      end.
Proof.
  unfold Wire.exchange, Wire.route, Server.put_todos.
  destruct (i <=? 0); [reflexivity|]. cbv zeta.
  destruct (Db.updateTask db i _ now) as [db' [t|]]; reflexivity.
Qed.

Lemma exchange_delete db i :
  forall now,
  Wire.exchange db (DeleteTodo i) now =
    if i <=? 0 then Some (db, Threw "Invalid id")
    else if (Db.deleteTask db i).2
         then Some ((Db.deleteTask db i).1, Resolved tt)
         else Some ((Db.deleteTask db i).1, Threw "Todo not found").
Proof.
  intros now. unfold Wire.exchange, Wire.route, Server.delete_todos.
  destruct (i <=? 0); [reflexivity|].
  destruct (Db.deleteTask db i) as [db' [|]]; reflexivity.
Qed.

Lemma find_In_sync s db i t :
  Wire.in_sync s db ->
  find (fun u => Api.id u =? i) (todos s) = Some t ->
  Api.id t = i /\ is_Some (Db.tasks db !! i).
Proof.
  intros Hs Hf. apply find_some in Hf as [Hin Hid].
  apply Z.eqb_eq in Hid. split; [exact Hid|].
  apply list_elem_of_In in Hin. rewrite Hs in Hin.
  apply getAllTasks_elem in Hin as (k & r & Hk & ->).
  simpl in Hid. subst k. eauto.
Qed.

Lemma find_None_sync s db i :
  Wire.in_sync s db ->
  find (fun u => Api.id u =? i) (todos s) = None ->
  Db.tasks db !! i = None.
Proof.
  intros Hs Hf. destruct (Db.tasks db !! i) as [r|] eqn:Hr; [|reflexivity].
  assert (Db.todo_of_row (i, r) ∈ todos s) as Hin.
  { rewrite Hs. apply getAllTasks_elem. eauto. }
  apply list_elem_of_In in Hin.
  apply (find_none _ _ Hf) in Hin. simpl in Hin.
  rewrite Z.eqb_refl in Hin. discriminate.
Qed.

Lemma map_replace_spread i updates (t' : Api.Todo) (l : list Api.Todo) :
  map (fun t => if Api.id t =? i then t' else t)
    (map (fun t => if Api.id t =? i then spread t updates else t) l)
  = map (fun t => if Api.id t =? i then t' else t) l.
Proof.
  induction l as [|t l IH]; [reflexivity|]. simpl. rewrite IH.
  destruct (Api.id t =? i) eqn:E; simpl; rewrite E; reflexivity.
Qed.

(** What [updateTodo] comes to against the server, from a list that is the
    server's. *)
Lemma perform_updateTodo s db i updates now :
  Wire.in_sync s db ->
  Wire.perform (updateTodo s i updates) db now =
    match find (fun t => Api.id t =? i) (todos s) with
    | Some t0 =>
        if i <=? 0
        then Some (db, {| todos := todos s; loading := loading s;
                          error := "Invalid id" |})
        else
          let db' :=
            (Db.updateTask db i
               {| Api.upd_title :=
                    Some (default (Api.title t0) (Api.upd_title updates));
                  Api.upd_completed :=
                    Some (default (Api.completed t0)
                            (Api.upd_completed updates)) |} now).1 in
          Some (db', {| todos := Db.getAllTasks db'; loading := loading s;
                        error := "" |})
    | None =>
        Some (db, {| todos := todos s; loading := loading s;
                     error := if i <=? 0 then "Invalid id"
                              else "Todo not found" |})
    end.
Proof.
  intros Hs. unfold Wire.perform, updateTodo. rewrite exchange_put.
  rewrite find_map_spread.
  destruct (find (fun t => Api.id t =? i) (todos s)) as [t0|] eqn:Hf;
    destruct (i <=? 0) eqn:Hi; try reflexivity.
  - destruct (find_In_sync _ _ _ _ Hs Hf) as [Hid [r Hr]].
    cbn [fmap option_fmap option_map spread Api.title Api.completed].
    cbv zeta.
    match goal with
    | |- context [Db.updateTask db i ?u now] =>
        destruct (updateTask_found db i r u now Hr) as (t' & Ht' & _);
        rewrite Ht'; pose proof (getAllTasks_updated db i u now t' Ht') as Hl
    end.
    cbn [setTodos setError todos loading error]. rewrite Hl.
    rewrite map_replace_spread, Hs. reflexivity.
  - cbv zeta. rewrite updateTask_missing
      by (eapply find_None_sync; eassumption).
    reflexivity.
Qed.

(** [updateTodo] against the server, from a list that is the server's: the
    call always comes to an end, and the list is again the server's, whether
    the update went through or was refused; when the callback ends with an
    error, the database and the list are as they were. *)
Theorem updateTodo_stays_in_sync s db i updates now :
  Wire.in_sync s db ->
  exists db' s',
    Wire.perform (updateTodo s i updates) db now = Some (db', s')
    /\ Wire.in_sync s' db'
    /\ (error s' <> ""%string -> db' = db /\ todos s' = todos s).
Proof.
  intros Hs. rewrite (perform_updateTodo _ _ _ _ _ Hs).
  destruct (find _ (todos s)) as [t0|]; [destruct (i <=? 0)|].
  - eexists _, _. split; [reflexivity|]. simpl. auto.
  - eexists _, _. split; [reflexivity|]. split; [reflexivity|].
    intros H. exfalso. apply H. reflexivity.
  - eexists _, _. split; [reflexivity|]. simpl. auto.
Qed.

Lemma updateTodo_stays_in_sync_witness :
  exists db' s',
    Wire.perform (updateTodo Sample.showing 1 Sample.done) Sample.one_task
      Sample.tuesday = Some (db', s')
    /\ todos s' = Db.getAllTasks db'.
Proof.
  destruct (updateTodo_stays_in_sync Sample.showing Sample.one_task 1
              Sample.done Sample.tuesday) as (db' & s' & H & Hs & _).
  - reflexivity.
  - exists db', s'. split; assumption.
Defined.

(** [toggleComplete] against the server, from a list that is the server's:
    the list is again the server's; for a task of the list (with an id above
    0), no error is shown and the server then has the flag flipped and
    [updated_at] set to the instant of the call. *)
Theorem toggleComplete_stays_in_sync s db i now :
  Wire.in_sync s db ->
  exists db' s',
    Wire.perform (toggleComplete s i) db now = Some (db', s')
    /\ Wire.in_sync s' db'
    /\ (forall t,
         find (fun u => Api.id u =? i) (todos s) = Some t -> 0 < i ->
         error s' = ""%string
         /\ exists r,
             Db.tasks db' !! i = Some r
             /\ Db.completed r = (if Api.completed t then 0 else 1)
             /\ Db.updated_at r = Some now).
Proof.
  intros Hs. unfold toggleComplete.
  destruct (find (fun t => Api.id t =? i) (todos s)) as [t0|] eqn:Hf.
  - rewrite (perform_updateTodo _ _ _ _ _ Hs), Hf.
    destruct (i <=? 0) eqn:Hi.
    + eexists _, _. split; [reflexivity|]. split; [exact Hs|].
      intros t _ Hpos. apply Z.leb_le in Hi. lia.
    + eexists _, _. split; [reflexivity|]. split; [reflexivity|].
      intros t [= <-] _. split; [reflexivity|].
      destruct (find_In_sync _ _ _ _ Hs Hf) as [_ [r Hr]].
      cbv zeta. rewrite updateTask_lookup, decide_True, Hr by reflexivity.
      eexists. split; [reflexivity|]. simpl.
      split; [destruct (Api.completed t0); reflexivity|reflexivity].
  - exists db, s. split; [reflexivity|]. split; [exact Hs|].
    intros t [=].
Qed.

Lemma toggleComplete_stays_in_sync_witness :
  exists db' s',
    Wire.perform (toggleComplete Sample.showing 1) Sample.one_task
      Sample.tuesday = Some (db', s')
    /\ error s' = ""%string
    /\ Db.completed <$> Db.tasks db' !! 1 = Some 1.
Proof.
  destruct (toggleComplete_stays_in_sync Sample.showing Sample.one_task 1
              Sample.tuesday) as (db' & s' & H & _ & Hrow);
    [reflexivity|].
  destruct (Hrow Sample.milk) as (He & r & Hr & Hc & _);
    [reflexivity|lia|].
  exists db', s'. split; [exact H|]. split; [exact He|].
  rewrite Hr. simpl. rewrite Hc. reflexivity.
Defined.

(** What [deleteTodo] comes to against the server, from a list that is the
    server's. *)
Lemma perform_deleteTodo s db i now :
  Wire.in_sync s db ->
  Wire.perform (deleteTodo s i) db now =
    if i <=? 0
    then Some (db, {| todos := todos s; loading := loading s;
                      error := "Invalid id" |})
    else if Db.tasks db !! i is Some _
         then Some ((Db.deleteTask db i).1,
                    {| todos := Db.getAllTasks (Db.deleteTask db i).1;
                       loading := loading s; error := "" |})
         else Some (db, {| todos := todos s; loading := loading s;
                           error := "Todo not found" |}).
Proof.
  intros Hs. unfold Wire.perform, deleteTodo. rewrite exchange_delete.
  destruct (i <=? 0); [reflexivity|].
  destruct (Db.tasks db !! i) as [r|] eqn:Hr.
  - unfold Db.deleteTask at 1. rewrite Hr. cbn [snd Z.ltb Z.compare].
    rewrite getAllTasks_deleted, <- Hs. reflexivity.
  - rewrite deleteTask_absent by exact Hr. reflexivity.
Qed.

(** [deleteTodo] against the server, from a list that is the server's: the
    list is again the server's; with an error it is the list as it was, over
    the database as it was; without one the task is gone from both. *)
Theorem deleteTodo_stays_in_sync s db i now :
  Wire.in_sync s db ->
  exists db' s',
    Wire.perform (deleteTodo s i) db now = Some (db', s')
    /\ Wire.in_sync s' db'
    /\ (error s' <> ""%string -> db' = db /\ todos s' = todos s)
    /\ (error s' = ""%string ->
        Db.tasks db' !! i = None
        /\ forall t, t ∈ todos s' -> Api.id t <> i).
Proof.
  intros Hs. rewrite (perform_deleteTodo _ _ _ _ Hs).
  destruct (i <=? 0).
  { eexists _, _. split; [reflexivity|]. simpl.
    split; [exact Hs|]. split; [auto|discriminate]. }
  destruct (Db.tasks db !! i) as [r|] eqn:Hr.
  - eexists _, _. split; [reflexivity|]. split; [reflexivity|].
    cbn [error todos].
    split; [intros H; exfalso; apply H; reflexivity|].
    intros _. split; [apply lookup_delete_eq|].
    intros t Ht. rewrite getAllTasks_deleted in Ht.
    apply list_elem_of_filter in Ht as [Ht _]. exact Ht.
  - eexists _, _. split; [reflexivity|]. simpl.
    split; [exact Hs|]. split; [auto|discriminate].
Qed.

Lemma deleteTodo_stays_in_sync_witness :
  exists db' s',
    Wire.perform (deleteTodo Sample.showing 1) Sample.one_task Sample.tuesday
    = Some (db', s')
    /\ todos s' = Db.getAllTasks db'.
Proof.
  destruct (deleteTodo_stays_in_sync Sample.showing Sample.one_task 1
              Sample.tuesday) as (db' & s' & H & Hs & _).
  - reflexivity.
  - exists db', s'. split; assumption.
Defined.

Lemma exchange_post db (title : Js.jsstring) now :
  Js.trim title <> [] ->
  Wire.exchange db
    (PostTodos {| new_title := Js.trim title; new_completed := false |}) now
  = Some ((Db.createTask db (Some (Js.trim title)) (Some false) now).1,
          Resolved
            (Db.todo_of_row
               (Db.next_rowid db,
                {| Db.title := Db.text (Js.trim title); Db.completed := 0;
                   Db.created_at := now; Db.updated_at := None |}))).
Proof.
  intros H. unfold Wire.exchange, Wire.route, Server.post_todos.
  cbn [new_title new_completed Js.String_or_empty default]. cbv zeta.
  rewrite trim_idem.
  destruct (Js.trim title) as [|c r] eqn:Ht; [congruence|].
  rewrite createTask_spec. cbn zeta.
  change (Js.String_or_empty (Some (c :: r))) with (c :: r).
  rewrite <- Ht, trim_idem.
  rewrite (createTask_spec db (Some (Js.trim title))). cbn zeta.
  change (Js.String_or_empty (Some (Js.trim title))) with (Js.trim title).
  rewrite trim_idem. reflexivity.
Qed.

(** [addTodo] against the server, from a list that is the server's, at an
    instant not before the creation of any task: the list is again the
    server's.  A blank title changes nothing; otherwise the new task, not
    completed and with the trimmed title as the TEXT column holds it (the
    trimmed title itself when it is well formed), is put first.  The error
    on the screen is the one that was there. *)
Theorem addTodo_stays_in_sync s db (title : Js.jsstring) now :
  Wire.in_sync s db ->
  (forall j r, Db.tasks db !! j = Some r ->
               String.compare (Db.created_at r) now <> Gt) ->
  exists db' s',
    Wire.perform (addTodo s title) db now = Some (db', s')
    /\ Wire.in_sync s' db'
    /\ error s' = error s
    /\ (Js.trim title = [] -> db' = db /\ s' = s)
    /\ (Js.trim title <> [] ->
        exists t,
          todos s' = t :: todos s
          /\ Api.title t = Js.toWellFormed (Js.trim title)
          /\ (Js.isWellFormed title -> Api.title t = Js.trim title)
          /\ Api.completed t = false
          /\ Api.createdAt t = now).
Proof.
  intros Hs Hclock. unfold Wire.perform, addTodo. cbn [new_title].
  destruct (Js.trim title) as [|c r] eqn:Ht.
  - exists db, s. repeat split; auto. congruence.
  - rewrite <- Ht. rewrite exchange_post by congruence.
    destruct (getAllTasks_created db (Some (Js.trim title)) (Some false) now
                Hclock) as (t & Hres & Hlist).
    rewrite createTask_spec in Hres. cbn zeta in Hres.
    change (Js.String_or_empty (Some (Js.trim title))) with (Js.trim title)
      in Hres.
    rewrite trim_idem in Hres. injection Hres as Hres.
    eexists _, _. split; [reflexivity|].
    cbn [setTodos todos error loading]. rewrite Hres.
    split; [unfold Wire.in_sync; cbn [todos]; rewrite Hlist, Hs;
            reflexivity|].
    split; [reflexivity|]. split; [congruence|].
    intros _. exists t. rewrite <- Hres.
    split; [reflexivity|]. split; [reflexivity|].
    split; [apply text_trim_well_formed|]. split; reflexivity.
Qed.

Lemma addTodo_stays_in_sync_witness :
  exists db' s',
    Wire.perform (addTodo Sample.showing (Js.lit " Write report "))
      Sample.one_task Sample.tuesday = Some (db', s')
    /\ todos s' = Db.getAllTasks db'.
Proof.
  destruct (addTodo_stays_in_sync Sample.showing Sample.one_task
              (Js.lit " Write report ") Sample.tuesday)
    as (db' & s' & H & Hs & _).
  - reflexivity.
  - intros j r Hj.
    destruct (decide (j = 1)) as [->|Hne].
    + vm_compute in Hj. injection Hj as <-. vm_compute. discriminate.
    + unfold Sample.one_task in Hj. rewrite createTask_spec in Hj.
      simpl in Hj. rewrite lookup_insert_ne in Hj by (vm_compute; congruence).
      rewrite lookup_empty in Hj. discriminate.
  - exists db', s'. split; assumption.
Defined.

(** An id the client does not have, in a list that is the server's:
    [updateTodo] and [deleteTodo] end with the server's refusal on the
    screen, "Invalid id" for an id that is not above 0 and "Todo not found"
    otherwise, and with the list and the database as they were. *)
Theorem unknown_id_is_refused s db i updates now a :
  Wire.in_sync s db ->
  (forall t, t ∈ todos s -> Api.id t <> i) ->
  a = updateTodo s i updates \/ a = deleteTodo s i ->
  Wire.perform a db now =
    Some (db, {| todos := todos s; loading := loading s;
                 error := if i <=? 0 then "Invalid id"
                          else "Todo not found" |}).
Proof.
  intros Hs Hnone Ha.
  pose proof (find_unknown_id _ _ Hnone) as Hf.
  destruct Ha as [->| ->].
  - rewrite (perform_updateTodo _ _ _ _ _ Hs), Hf. reflexivity.
  - rewrite (perform_deleteTodo _ _ _ _ Hs).
    rewrite (find_None_sync _ _ _ Hs Hf).
    destruct (i <=? 0); reflexivity.
Qed.

Lemma unknown_id_is_refused_witness :
  error <$> (snd <$> Wire.perform (deleteTodo Sample.showing 7)
                       Sample.one_task Sample.tuesday)
  = Some "Todo not found"%string.
Proof.
  rewrite (unknown_id_is_refused Sample.showing Sample.one_task 7
             Sample.done Sample.tuesday (deleteTodo Sample.showing 7)).
  - reflexivity.
  - reflexivity.
  - intros t Ht. vm_compute in Ht.
    apply list_elem_of_singleton in Ht. rewrite Ht. simpl. lia.
  - right. reflexivity.
Defined.

(** The load: [loading] is on while the request is out and off in the end.
    Against the server, whatever the client showed, it then shows the
    server's list with no error, and the database is untouched; when the
    request fails, the list stays as it was and an error is shown. *)
Theorem fetchTodos_syncs s db now :
  loading (at_await (fetchTodos s)) = true
  /\ Wire.perform (fetchTodos s) db now
     = Some (db, {| todos := Db.getAllTasks db; loading := false;
                    error := "" |})
  /\ (forall net,
       loading (complete (fetchTodos s) net) = false
       /\ (fails (fetchTodos s) net ->
           todos (complete (fetchTodos s) net) = todos s
           /\ error (complete (fetchTodos s) net) <> ""%string)).
Proof.
  split; [reflexivity|]. split; [reflexivity|].
  intros net. simpl. destruct (net GetTodos) as [data|message]; simpl.
  - split; [reflexivity|]. intros [m Hm]. discriminate.
  - split; [reflexivity|]. intros _.
    split; [reflexivity|apply or_else_nonempty; discriminate].
Qed.

Lemma fetchTodos_syncs_witness :
  todos (complete (fetchTodos Sample.showing) Sample.offline)
  = todos Sample.showing.
Proof.
  destruct (fetchTodos_syncs Sample.showing Sample.one_task Sample.tuesday)
    as (_ & _ & H).
  destruct (H Sample.offline) as [_ H']. apply H'.
  simpl. eauto.
Defined.

Lemma perform_addTodo s db (title : Js.jsstring) now :
  Wire.in_sync s db ->
  (forall j r, Db.tasks db !! j = Some r ->
               String.compare (Db.created_at r) now <> Gt) ->
  Wire.perform (addTodo s title) db now =
    match Js.trim title with
    | [] => Some (db, s)
    | _ =>
        let db' :=
          (Db.createTask db (Some (Js.trim title)) (Some false) now).1 in
        Some (db', {| todos := Db.getAllTasks db'; loading := loading s;
                      error := error s |})
    end.
Proof.
  intros Hs Hclock. unfold Wire.perform, addTodo. cbn [new_title].
  destruct (Js.trim title) as [|c r] eqn:Ht; [reflexivity|].
  rewrite <- Ht. rewrite exchange_post by congruence.
  destruct (getAllTasks_created db (Some (Js.trim title)) (Some false) now
              Hclock) as (t & Hres & Hlist).
  rewrite createTask_spec in Hres. cbn zeta in Hres.
  change (Js.String_or_empty (Some (Js.trim title))) with (Js.trim title)
    in Hres.
  rewrite trim_idem in Hres. injection Hres as Hres.
  cbv zeta. rewrite Hlist, <- Hs, <- Hres. reflexivity.
Qed.

(** One action: it comes to an end, in sync, and every task of the table was
    created at the instant of the action or was there before. *)
Lemma perform_callback a s db now :
  Wire.in_sync s db ->
  (forall j r, Db.tasks db !! j = Some r ->
               Session.not_after (Db.created_at r) now) ->
  exists db' s',
    Wire.perform (Session.callback a s) db now = Some (db', s')
    /\ Wire.in_sync s' db'
    /\ forall j r',
        Db.tasks db' !! j = Some r' ->
        Db.created_at r' = now
        \/ exists r, Db.tasks db !! j = Some r
                     /\ Db.created_at r = Db.created_at r'.
Proof.
  intros Hs Hclock.
  assert (forall j r', Db.tasks db !! j = Some r' ->
            Db.created_at r' = now
            \/ exists r, Db.tasks db !! j = Some r
                         /\ Db.created_at r = Db.created_at r') as Hsame
    by (intros j r' H; right; eauto).
  assert (forall k u j r',
            Db.tasks (Db.updateTask db k u now).1 !! j = Some r' ->
            Db.created_at r' = now
            \/ exists r, Db.tasks db !! j = Some r
                         /\ Db.created_at r = Db.created_at r') as Hupd.
  { intros k u j r' H. right.
    pose proof (updateTask_created_at db k u now j) as Hc.
    rewrite H in Hc. destruct (Db.tasks db !! j) as [r|]; [|discriminate].
    injection Hc as Hc. eauto. }
  destruct a as [|title|i updates|i|i]; cbn [Session.callback].
  - eexists _, _. split; [reflexivity|]. split; [reflexivity|exact Hsame].
  - rewrite (perform_addTodo _ _ _ _ Hs Hclock).
    destruct (Js.trim title) as [|c r] eqn:Ht.
    + eexists _, _. split; [reflexivity|]. auto.
    + eexists _, _. split; [reflexivity|]. split; [reflexivity|].
      cbv zeta. rewrite createTask_spec. cbn zeta. cbn [fst Db.tasks].
      intros j r' H. apply lookup_insert_Some in H as [[_ <-]|[_ H]];
        [left; reflexivity|right; eauto].
  - rewrite (perform_updateTodo _ _ _ _ _ Hs).
    destruct (find _ (todos s)); [destruct (i <=? 0)|];
      eexists _, _; (split; [reflexivity|]); split;
      try exact Hs; try reflexivity; try exact Hsame.
    cbv zeta. apply Hupd.
  - unfold toggleComplete.
    destruct (find (fun t => Api.id t =? i) (todos s)) as [t0|] eqn:Hf.
    + rewrite (perform_updateTodo _ _ _ _ _ Hs), Hf.
      destruct (i <=? 0);
        eexists _, _; (split; [reflexivity|]); split;
        try exact Hs; try reflexivity; try exact Hsame.
      cbv zeta. apply Hupd.
    + eexists _, _. split; [reflexivity|]. auto.
  - rewrite (perform_deleteTodo _ _ _ _ Hs).
    destruct (i <=? 0); [|destruct (Db.tasks db !! i) eqn:Hr];
      eexists _, _; (split; [reflexivity|]); split;
      try exact Hs; try reflexivity; try exact Hsame.
    intros j r' H. cbn [Db.deleteTask fst Db.tasks] in H.
    apply lookup_delete_Some in H as [_ H]. right. eauto.
Qed.

(** A whole session, from a list that is the server's, with a clock that
    does not go back: every action comes to an end and the client again
    shows the server's list. *)
Theorem session_stays_in_sync actions :
  forall db s,
    Wire.in_sync s db ->
    Session.clock_ok db (snd <$> actions) ->
    exists db' s',
      Session.run actions db s = Some (db', s') /\ Wire.in_sync s' db'.
Proof.
  induction actions as [|[a now] actions IH]; intros db s Hs [Hsorted Hrows].
  - exists db, s. split; [reflexivity|exact Hs].
  - rewrite fmap_cons in Hsorted, Hrows. cbn [snd] in Hsorted, Hrows.
    apply StronglySorted_inv in Hsorted as [Hsorted Hnow].
    destruct (perform_callback a s db now Hs) as (db1 & s1 & Hp & Hs1 & Hd).
    { intros j r Hj. apply (Hrows now j r); [left|exact Hj]. }
    cbn [Session.run]. rewrite Hp. apply IH; [exact Hs1|].
    split; [exact Hsorted|].
    intros later j r' Hlater Hj.
    destruct (Hd j r' Hj) as [->|(r & Hr & <-)].
    + eapply Forall_forall in Hnow; eassumption.
    + apply (Hrows later j r); [right; exact Hlater|exact Hr].
Qed.

Lemma session_stays_in_sync_witness :
  exists db' s',
    Session.run
      [(Session.Add (Js.lit "Write report"), Sample.tuesday);
       (Session.Toggle 2, Sample.tuesday);
       (Session.Remove 1, Sample.tuesday)]
      Sample.one_task Sample.showing = Some (db', s')
    /\ todos s' = Db.getAllTasks db'.
Proof.
  apply session_stays_in_sync; [reflexivity|].
  split.
  - repeat constructor; vm_compute; discriminate.
  - intros now j r Hnow Hj.
    assert (now = Sample.tuesday) as ->.
    { simpl in Hnow.
      repeat (apply elem_of_cons in Hnow as [Hnow|Hnow];
              [exact Hnow|]).
      apply elem_of_nil in Hnow. destruct Hnow. }
    destruct (decide (j = 1)) as [->|Hne].
    + vm_compute in Hj. injection Hj as <-. vm_compute. discriminate.
    + unfold Sample.one_task in Hj. rewrite createTask_spec in Hj.
      simpl in Hj. rewrite lookup_insert_ne in Hj by (vm_compute; congruence).
      rewrite lookup_empty in Hj. discriminate.
Defined.

End Sync.

(** ** Through the components *)

Section ThroughUi.

Import Hook.

Implicit Types (s : State) (db : Db.Database) (now : string).

Lemma perform_addTodo_accepted s db (title : Js.jsstring) now :
  Js.trim title <> [] ->
  Wire.perform (addTodo s title) db now =
    Some ((Db.createTask db (Some (Js.trim title)) (Some false) now).1,
          setTodos
            (Db.todo_of_row
               (Db.next_rowid db,
                {| Db.title := Db.text (Js.trim title); Db.completed := 0;
                   Db.created_at := now; Db.updated_at := None |})
             :: todos s) s).
Proof.
  intros H. unfold Wire.perform, addTodo. cbn [new_title].
  destruct (Js.trim title) as [|c r] eqn:Ht; [congruence|].
  rewrite <- Ht. rewrite exchange_post by congruence. reflexivity.
Qed.

(** What [addTodo] lets through, the server takes: for a title that is not
    blank the POST is never refused, whatever the list and the table; the
    task is stored under the trimmed title as the TEXT column holds it (the
    trimmed title itself when it is well formed) and put first in the list,
    and the error on the screen is not touched. *)
Theorem addTodo_is_never_refused s db (title : Js.jsstring) now :
  Js.trim title <> [] ->
  exists db' s' t,
    Wire.perform (addTodo s title) db now = Some (db', s')
    /\ todos s' = t :: todos s
    /\ error s' = error s
    /\ Api.title t = Js.toWellFormed (Js.trim title)
    /\ (Js.isWellFormed title -> Api.title t = Js.trim title)
    /\ Db.getTaskById db' (Api.id t) = Some t.
Proof.
  intros H. rewrite (perform_addTodo_accepted _ _ _ _ H).
  eexists _, _, _. split; [reflexivity|].
  split; [reflexivity|]. split; [reflexivity|]. split; [reflexivity|].
  split; [apply text_trim_well_formed|].
  rewrite createTask_spec. cbn zeta.
  change (Js.String_or_empty (Some (Js.trim title))) with (Js.trim title).
  rewrite trim_idem.
  unfold Db.getTaskById, Db.select_by_id. cbn [Db.tasks fst Api.id
    Db.todo_of_row].
  rewrite lookup_insert_eq. reflexivity.
Qed.

Lemma addTodo_is_never_refused_witness :
  exists db' s' t,
    Wire.perform (addTodo Sample.stale (Js.lit " Write report"))
      Sample.one_task Sample.monday = Some (db', s')
    /\ todos s' = t :: todos Sample.stale
    /\ Api.title t = Js.lit "Write report".
Proof.
  destruct (addTodo_is_never_refused Sample.stale Sample.one_task
              (Js.lit " Write report") Sample.monday)
    as (db' & s' & t & H1 & H2 & _ & H3 & _).
  - vm_compute. discriminate.
  - exists db', s', t. split; [exact H1|]. split; [exact H2|].
    rewrite H3. reflexivity.
Defined.

(** The input form hands [addTodo] a title only when the text is not blank,
    and then the trimmed text, which [addTodo] posts as it is; the input is
    emptied.  A blank text is left in the input and nothing is added. *)
Theorem submit_posts_trimmed_text s (value : Js.jsstring) :
  match Ui.submit value with
  | (Some title, text) =>
      Js.trim value <> [] /\ title = Js.trim value /\ text = []
      /\ issued (addTodo s title)
         = Some (PostTodos {| new_title := title; new_completed := false |})
  | (None, text) => Js.blank value /\ text = value
  end.
Proof.
  unfold Ui.submit.
  destruct (Js.trim value) as [|c r] eqn:Ht.
  - split; [apply trim_nil_iff; exact Ht|reflexivity].
  - split; [discriminate|]. split; [reflexivity|]. split; [reflexivity|].
    unfold addTodo. cbn [new_title]. rewrite <- Ht, trim_idem, Ht.
    reflexivity.
Qed.

(** What [handleSave] sends: only a title, trimmed, not empty and other than
    the one the task has, for the id of the task; in every case editing
    ends, and when nothing is sent the text goes back to the title of the
    task. *)
Theorem handleSave_sends_clean_title todo (st : Ui.Item) :
  Ui.editing (Ui.handleSave todo st).2 = false
  /\ match (Ui.handleSave todo st).1 with
     | Some (i, updates) =>
         i = Api.id todo
         /\ updates = {| Api.upd_title := Some (Js.trim (Ui.title st));
                         Api.upd_completed := None |}
         /\ Js.trim (Ui.title st) <> []
         /\ Js.trim (Ui.title st) <> Api.title todo
     | None =>
         (Js.blank (Ui.title st) \/ Js.trim (Ui.title st) = Api.title todo)
         /\ Ui.title (Ui.handleSave todo st).2 = Api.title todo
     end
  /\ (forall key call,
       (Ui.handleKey todo st key).1 = Some call ->
       key = "Enter"%string /\ (Ui.handleSave todo st).1 = Some call).
Proof.
  split; [|split].
  - unfold Ui.handleSave. cbv zeta.
    destruct (_ || _); reflexivity.
  - unfold Ui.handleSave. cbv zeta.
    destruct (bool_decide (Js.trim (Ui.title st) = [])) eqn:E1; simpl.
    + apply bool_decide_eq_true in E1.
      split; [left; apply trim_nil_iff; exact E1|reflexivity].
    + apply bool_decide_eq_false in E1.
      destruct (bool_decide (Js.trim (Ui.title st) = Api.title todo)) eqn:E2;
        simpl.
      * apply bool_decide_eq_true in E2. auto.
      * apply bool_decide_eq_false in E2. auto.
  - intros key call. unfold Ui.handleKey.
    destruct (String.eqb key "Enter") eqn:E.
    + apply String.eqb_eq in E. auto.
    + destruct (String.eqb key "Escape"); discriminate.
Qed.

Lemma handleSave_sends_clean_title_witness :
  (Ui.handleSave Sample.milk
     {| Ui.editing := true; Ui.title := Js.lit " Buy oat milk " |}).1
  = Some (1, {| Api.upd_title := Some (Js.lit "Buy oat milk");
                Api.upd_completed := None |}).
Proof.
  destruct (handleSave_sends_clean_title Sample.milk
              {| Ui.editing := true; Ui.title := Js.lit " Buy oat milk " |})
    as (_ & _ & H).
  destruct (H "Enter"%string
              (1, {| Api.upd_title := Some (Js.lit "Buy oat milk");
                     Api.upd_completed := None |})) as [_ H'];
    [reflexivity|exact H'].
Defined.

Lemma handleSave_clean todo (st : Ui.Item) i updates :
  (Ui.handleSave todo st).1 = Some (i, updates) ->
  i = Api.id todo
  /\ updates = {| Api.upd_title := Some (Js.trim (Ui.title st));
                  Api.upd_completed := None |}
  /\ Js.trim (Ui.title st) <> [].
Proof.
  unfold Ui.handleSave. cbv zeta.
  destruct (bool_decide (Js.trim (Ui.title st) = [])) eqn:E1; simpl;
    [discriminate|].
  apply bool_decide_eq_false in E1.
  destruct (bool_decide (Js.trim (Ui.title st) = Api.title todo)); simpl;
    [discriminate|].
  intros [= <- <-]. auto.
Qed.

(** An edit made through [TodoItem], on a list that is the server's, for a
    task of the list with an id above 0: when [handleSave] calls
    [updateTodo], the server stores as the title the trimmed text as the
    TEXT column holds it (the trimmed text itself when it is well formed),
    which is not empty, no error is shown and the list is again the
    server's. *)
Theorem edit_through_item s db todo (st : Ui.Item) i updates now :
  Wire.in_sync s db ->
  todo ∈ todos s ->
  0 < Api.id todo ->
  (Ui.handleSave todo st).1 = Some (i, updates) ->
  exists db' s',
    Wire.perform (updateTodo s i updates) db now = Some (db', s')
    /\ Wire.in_sync s' db'
    /\ error s' = ""%string
    /\ Db.title <$> Db.tasks db' !! Api.id todo
       = Some (Js.toWellFormed (Js.trim (Ui.title st)))
    /\ (Js.isWellFormed (Ui.title st) ->
        Db.title <$> Db.tasks db' !! Api.id todo
        = Some (Js.trim (Ui.title st)))
    /\ Js.toWellFormed (Js.trim (Ui.title st)) <> [].
Proof.
  intros Hs Hin Hpos Hsave.
  destruct (handleSave_clean todo st i updates Hsave) as (-> & -> & Hne).
  rewrite (perform_updateTodo _ _ _ _ _ Hs).
  destruct (find (fun t => Api.id t =? Api.id todo) (todos s)) as [t0|] eqn:Hf.
  2: { apply list_elem_of_In in Hin. apply (find_none _ _ Hf) in Hin.
       simpl in Hin. rewrite Z.eqb_refl in Hin. discriminate. }
  destruct (Api.id todo <=? 0) eqn:Hle; [apply Z.leb_le in Hle; lia|].
  destruct (find_In_sync _ _ _ _ Hs Hf) as [_ [r Hr]].
  eexists _, _. split; [reflexivity|]. split; [reflexivity|].
  split; [reflexivity|].
  assert (Db.title <$>
            Db.tasks
              (Db.updateTask db (Api.id todo)
                 {| Api.upd_title :=
                      Some (default (Api.title t0)
                              (Some (Js.trim (Ui.title st))));
                    Api.upd_completed :=
                      Some (default (Api.completed t0) None) |} now).1
            !! Api.id todo
          = Some (Js.toWellFormed (Js.trim (Ui.title st)))) as Hrow.
  { rewrite updateTask_lookup, decide_True, Hr by reflexivity.
    cbn [Api.upd_title Api.upd_completed fmap option_fmap option_map
         Rows.updated Db.title default from_option id].
    rewrite trim_idem. reflexivity. }
  split; [exact Hrow|]. split.
  - intros Hwf. etransitivity; [exact Hrow|]. f_equal.
    apply text_trim_well_formed. exact Hwf.
  - rewrite toWellFormed_nil_iff. exact Hne.
Qed.

Lemma edit_through_item_witness :
  exists db' s',
    Wire.perform
      (updateTodo Sample.showing 1
         {| Api.upd_title := Some (Js.lit "Buy oat milk");
            Api.upd_completed := None |})
      Sample.one_task Sample.tuesday = Some (db', s')
    /\ Db.title <$> Db.tasks db' !! 1 = Some (Js.lit "Buy oat milk").
Proof.
  destruct (edit_through_item Sample.showing Sample.one_task Sample.milk
              {| Ui.editing := true; Ui.title := Js.lit " Buy oat milk " |}
              1 {| Api.upd_title := Some (Js.lit "Buy oat milk");
                   Api.upd_completed := None |} Sample.tuesday)
    as (db' & s' & H & _ & _ & Ht & _).
  - reflexivity.
  - vm_compute. left.
  - simpl. lia.
  - reflexivity.
  - exists db', s'. split; [exact H|exact Ht].
Defined.

End ThroughUi.

(** ** Origins and URLs *)

Section Urls.

Implicit Types (env : Config.Env) (s path : Js.jsstring).



Lemma strip_slashes_last s c :
  last (Config.strip_slashes s) = Some c -> c <> 47%N.
Proof.
  induction s as [|d s IH]; simpl; [discriminate|].
  destruct (Config.strip_slashes s) as [|e t].
  - destruct (d =? 47)%N eqn:Hd; simpl; [discriminate|].
    intros [= <-]. apply N.eqb_neq. exact Hd.
  - exact IH.
Qed.

Lemma strip_slashes_fixed s :
  last s <> Some 47%N -> Config.strip_slashes s = s.
Proof.
  induction s as [|c s IH]; [reflexivity|]. intros H.
  destruct s as [|d s].
  - simpl in *. destruct (c =? 47)%N eqn:Hc; [|reflexivity].
    apply N.eqb_eq in Hc. congruence.
  - change (last (c :: d :: s)) with (last (d :: s)) in H.
    change (Config.strip_slashes (c :: d :: s)) with
      (match Config.strip_slashes (d :: s) with
       | [] => if (c =? 47)%N then [] else [c]
       | r => c :: r
       end).
    rewrite IH by exact H. reflexivity.
Qed.

Lemma no_trailing_slash s :
  (forall c, last s = Some c -> c <> 47%N) <-> last s <> Some 47%N.
Proof.
  split.
  - intros H E. apply (H _ E). reflexivity.
  - intros H c E Hc. subst c. contradiction.
Qed.

(** [api/client.js]: the base URL never ends with a slash; it is [/api]
    when neither variable has a value; and the URL fetched is the base
    followed by the path, whether or not the base starts with "http". *)
Theorem request_url_is_base_then_path env path :
  Config.request_url env path = Config.getApiBaseUrl env ++ path
  /\ last (Config.getApiBaseUrl env) <> Some 47%N
  /\ (Config.truthy (env "REACT_APP_API_BASE"%string) = false ->
      Config.truthy (env "REACT_APP_BACKEND_URL"%string) = false ->
      Config.getApiBaseUrl env = Js.lit "/api").
Proof.
  split; [|split].
  - unfold Config.request_url. cbv zeta.
    destruct (Config.startsWith _ _); [reflexivity|].
    reflexivity.
  - unfold Config.getApiBaseUrl. cbv zeta.
    destruct (Config.or_empty _) as [|c r] eqn:E.
    + simpl. discriminate.
    + apply no_trailing_slash. intros d. apply strip_slashes_last.
  - intros H1 H2. unfold Config.getApiBaseUrl.
    destruct (env "REACT_APP_API_BASE"%string) as [[|? ?]|];
      destruct (env "REACT_APP_BACKEND_URL"%string) as [[|? ?]|];
      simpl in *; try discriminate; reflexivity.
Qed.

Lemma request_url_is_base_then_path_witness :
  Config.getApiBaseUrl (fun _ => None) = Js.lit "/api".
Proof.
  apply (request_url_is_base_then_path (fun _ => None) []); reflexivity.
Defined.

Lemma last_app_lit (l : Js.jsstring) (a b c d : N) :
  last (l ++ [a; b; c; d]) = Some d.
Proof.
  change [a; b; c; d] with ([a; b; c] ++ [d]).
  rewrite app_assoc. apply last_snoc.
Qed.

(** The other client: the base URL never ends with a slash either, so the
    second stripping in [apiRequest] changes nothing; the URL is the base
    followed by the path, with exactly the slash the path lacked, so that a
    path gives the same URL with or without its leading slash. *)
Theorem alt_request_url_joins_with_one_slash env path :
  last (ConfigAlt.getApiBaseUrl env) <> Some 47%N
  /\ ConfigAlt.request_url env path
     = ConfigAlt.getApiBaseUrl env
       ++ (if Config.startsWith [47%N] path then path else 47%N :: path)
  /\ (Config.startsWith [47%N] path = false ->
      ConfigAlt.request_url env (47%N :: path)
      = ConfigAlt.request_url env path).
Proof.
  assert (last (ConfigAlt.getApiBaseUrl env) <> Some 47%N) as Hlast.
  { unfold ConfigAlt.getApiBaseUrl. cbv zeta.
    destruct (Js.trim _) as [|c r].
    - destruct (Js.trim _) as [|d v].
      + simpl. discriminate.
      + unfold Js.lit. simpl N_of_ascii. rewrite last_app_lit. discriminate.
    - apply no_trailing_slash. intros d. apply strip_slashes_last. }
  split; [exact Hlast|]. split.
  - unfold ConfigAlt.request_url. cbv zeta.
    rewrite strip_slashes_fixed by exact Hlast. reflexivity.
  - intros H. unfold ConfigAlt.request_url. cbv zeta. rewrite H.
    reflexivity.
Qed.

Lemma alt_request_url_joins_with_one_slash_witness :
  ConfigAlt.request_url (fun _ => None) (Js.lit "/todos")
  = ConfigAlt.request_url (fun _ => None) (Js.lit "todos").
Proof.
  apply (alt_request_url_joins_with_one_slash (fun _ => None) (Js.lit "todos")).
  reflexivity.
Defined.

End Urls.

(** ** The shape of the list under [updateTodo] *)

Section ListShape.

Import Hook.

Lemma ids_map_replace i (f : Api.Todo -> Api.Todo) (l : list Api.Todo) :
  (forall t, Api.id t = i -> Api.id (f t) = i) ->
  Api.id <$> map (fun t => if Api.id t =? i then f t else t) l
  = Api.id <$> l.
Proof.
  intros Hf. induction l as [|t l IH]; [reflexivity|].
  simpl map. rewrite !fmap_cons, IH. f_equal.
  destruct (Api.id t =? i) eqn:E; [|reflexivity].
  apply Z.eqb_eq in E. rewrite Hf by exact E. symmetry. exact E.
Qed.

(** [updateTodo] never adds, drops or reorders tasks: while the request is
    out the list has the same ids in the same order, and so it has in the
    end, given that a server that accepts the update answers with a task of
    the id it was asked for. *)
Theorem updateTodo_keeps_ids (s : State) i updates (net : Network) :
  (forall body t, net (PutTodo i body) = Resolved t -> Api.id t = i) ->
  Api.id <$> todos (at_await (updateTodo s i updates)) = Api.id <$> todos s
  /\ Api.id <$> todos (complete (updateTodo s i updates) net)
     = Api.id <$> todos s.
Proof.
  intros Hecho.
  assert (Api.id <$> map (fun t => if Api.id t =? i then spread t updates
                                   else t) (todos s)
          = Api.id <$> todos s) as Hnext
    by (apply ids_map_replace; intros t Ht; exact Ht).
  split; [exact Hnext|]. simpl.
  destruct (net _) as [updated|message] eqn:Hnet; simpl; [|reflexivity].
  rewrite ids_map_replace; [exact Hnext|].
  intros _ _. eapply Hecho. exact Hnet.
Qed.

Lemma updateTodo_keeps_ids_witness :
  Api.id <$> todos (complete (updateTodo Sample.showing 1 Sample.done)
                      Sample.online)
  = [1].
Proof.
  destruct (updateTodo_keeps_ids Sample.showing 1 Sample.done Sample.online)
    as [_ H].
  - intros body t [= <-]. reflexivity.
  - rewrite H. reflexivity.
Defined.

End ListShape.
